(** * The issue detector of the code review assistant ([app.py])

    A shallow embedding of [detect_issues] and of the Python primitives it
    calls ([str.splitlines], [len], [in] on strings, [re.match], f-string
    formatting of an [int]), followed by the properties of the detector. *)

From Stdlib Require Import String Ascii.
From Stdlib Require Import List NArith Arith Bool Lia.
From Stdlib Require Import Sorted.
From Stdlib Require Decimal DecimalNat.
Import ListNotations.

(** ** Python strings

    A Python [str] is a sequence of Unicode code points; [len] counts code
    points.  Code points are numbers, so that the line boundaries and the
    white space above U+00FF are part of the model. *)

Definition pystr := list N.

(** A string literal of the source (all of them are ASCII). *)
Definition lit (s : string) : pystr :=
  map N_of_ascii (list_ascii_of_string s).

Fixpoint pystr_eqb (a b : pystr) : bool :=
  match a, b with
  | [], [] => true
  | x :: a', y :: b' => (x =? y)%N && pystr_eqb a' b'
  | _, _ => false
  end.

(** [str.isspace] on one code point, which is also the class [\s] of a
    [str] pattern. *)
Definition is_space (c : N) : bool :=
  (((9 <=? c) && (c <=? 13)) || ((28 <=? c) && (c <=? 31)) || (c =? 32)
  || (c =? 133) || (c =? 160) || (c =? 5760)
  || ((8192 <=? c) && (c <=? 8202)) || (c =? 8232) || (c =? 8233)
  || (c =? 8239) || (c =? 8287) || (c =? 12288))%N.

(** The line boundaries of [str.splitlines]: LF, VT, FF, CR, FS, GS, RS,
    NEL, LINE SEPARATOR and PARAGRAPH SEPARATOR. *)
Definition is_linebreak (c : N) : bool :=
  (((10 <=? c) && (c <=? 13)) || ((28 <=? c) && (c <=? 30))
  || (c =? 133) || (c =? 8232) || (c =? 8233))%N.

Definition LF : N := 10.
Definition CR : N := 13.

(** [text.splitlines()]: one scan of the text; [acc] holds, reversed, the
    characters of the line being read.  A line ends at a line boundary, CR LF
    counting as one boundary; the boundary is not kept; what follows the last
    boundary is a line only when it is not empty. *)
Fixpoint splitlines_from (acc : pystr) (s : pystr) : list pystr :=
  match s with
  | [] => match acc with [] => [] | _ :: _ => [rev acc] end
  | c :: s' =>
      if is_linebreak c then
        rev acc ::
          match s' with
          | d :: s'' =>
              if ((c =? CR) && (d =? LF))%N then splitlines_from [] s''
              else splitlines_from [] s'
          | [] => splitlines_from [] s'
          end
      else splitlines_from (c :: acc) s'
  end.

Definition splitlines (text : pystr) : list pystr := splitlines_from [] text.

(** [needle in hay] on strings: a substring test. *)
Fixpoint startswith (p s : pystr) : bool :=
  match p, s with
  | [], _ => true
  | _ :: _, [] => false
  | a :: p', b :: s' => (a =? b)%N && startswith p' s'
  end.

Fixpoint contains (needle hay : pystr) : bool :=
  startswith needle hay
  || match hay with
     | [] => false
     | _ :: hay' => contains needle hay'
     end.

(** [str(n)] for a non-negative [int], as the f-string inserts it. *)
Fixpoint uint_codes (d : Decimal.uint) : pystr :=
  match d with
  | Decimal.Nil => []
  | Decimal.D0 d => 48%N :: uint_codes d
  | Decimal.D1 d => 49%N :: uint_codes d
  | Decimal.D2 d => 50%N :: uint_codes d
  | Decimal.D3 d => 51%N :: uint_codes d
  | Decimal.D4 d => 52%N :: uint_codes d
  | Decimal.D5 d => 53%N :: uint_codes d
  | Decimal.D6 d => 54%N :: uint_codes d
  | Decimal.D7 d => 55%N :: uint_codes d
  | Decimal.D8 d => 56%N :: uint_codes d
  | Decimal.D9 d => 57%N :: uint_codes d
  end.

Definition str_of_int (n : nat) : pystr := uint_codes (Nat.to_uint n).

(** ** The fragment of [re] the detector uses

    The pattern ["^\s*except\s*:\s*$"] is built from literal characters, the
    class [\s], a star over one character and the two anchors.  [match_here]
    is the backtracking search of [re.match]: it answers whether some way of
    running the stars matches a prefix of the subject.  The flag tells
    whether the position is the start of the subject. *)

Inductive cset : Type :=
| CLit (c : N)
| CSpace.

Inductive node : Type :=
| One (a : cset)
| Star (a : cset)
| Bol
| Eol.

Definition regex := list node.

Definition cset_test (a : cset) (c : N) : bool :=
  match a with
  | CLit d => (c =? d)%N
  | CSpace => is_space c
  end.

(** [$] without [re.MULTILINE]: the end of the subject, or just before a
    newline that ends the subject. *)
Definition at_eol (s : pystr) : bool :=
  match s with
  | [] => true
  | [c] => (c =? LF)%N
  | _ :: _ :: _ => false
  end.

Fixpoint match_here (p : regex) : bool -> pystr -> bool :=
  match p with
  | [] => fun _ _ => true
  | One a :: p' =>
      fun _ s =>
        match s with
        | c :: s' => cset_test a c && match_here p' false s'
        | [] => false
        end
  | Star a :: p' =>
      fix star (b : bool) (s : pystr) {struct s} : bool :=
        match s with
        | c :: s' => (cset_test a c && star false s') || match_here p' b s
        | [] => match_here p' b s
        end
  | Bol :: p' => fun b s => b && match_here p' b s
  | Eol :: p' => fun b s => at_eol s && match_here p' b s
  end.

(** [re.match(p, s)] taken as a truth value. *)
Definition re_match (p : regex) (s : pystr) : bool := match_here p true s.

Definition literal (s : pystr) : regex := map (fun c => One (CLit c)) s.

(** [r"^\s*except\s*:\s*$"] *)
Definition bare_except_re : regex :=
  [Bol; Star CSpace] ++ literal (lit "except")
  ++ [Star CSpace; One (CLit 58%N); Star CSpace; Eol].

(** ** The analyzer *)

Record Issue : Type := mkIssue {
  file : pystr;
  line : nat;
  category : pystr;
  message : pystr;
  snippet : pystr
}.

Definition Style : pystr := lit "Style".
Definition Maintainability : pystr := lit "Maintainability".
Definition BestPractice : pystr := lit "BestPractice".
Definition ErrorHandling : pystr := lit "ErrorHandling".

Definition style_message (n : nat) : pystr :=
  lit "Line length " ++ str_of_int n ++ lit " exceeds 120 chars".
Definition todo_message : pystr := lit "TODO left in code".
Definition print_message : pystr :=
  lit "Avoid print in library code; prefer logging".
Definition except_message : pystr :=
  lit "Bare except detected; catch specific exceptions".

(** The body of the loop: the four checks on line [i], each appending to
    [issues]. *)
Definition check_line (filename : pystr) (i : nat) (ln : pystr)
    (issues : list Issue) : list Issue :=
  let issues :=
    if 120 <? length ln
    then issues ++ [mkIssue filename i Style (style_message (length ln)) ln]
    else issues in
  let issues :=
    if contains (lit "TODO") ln
    then issues ++ [mkIssue filename i Maintainability todo_message ln]
    else issues in
  let issues :=
    if contains (lit "print(") ln
    then issues ++ [mkIssue filename i BestPractice print_message ln]
    else issues in
  let issues :=
    if re_match bare_except_re ln
    then issues ++ [mkIssue filename i ErrorHandling except_message ln]
    else issues in
  issues.

(** [for i, line in enumerate(lines, start=1)], with [i] the next index. *)
Fixpoint detect_loop (filename : pystr) (i : nat) (lines : list pystr)
    (issues : list Issue) : list Issue :=
  match lines with
  | [] => issues
  | ln :: rest => detect_loop filename (S i) rest (check_line filename i ln issues)
  end.

Definition detect_issues (filename text : pystr) : list Issue :=
  detect_loop filename 1 (splitlines text) [].

(** ** Specification-side notions *)

(** [needle] occurs somewhere in [hay]. *)
Definition substring (needle hay : pystr) : Prop :=
  exists a b, hay = a ++ needle ++ b.

Definition all_space (w : pystr) : Prop := forallb is_space w = true.

(** The whole line is the handler keyword and the colon, with nothing but
    white space before, between and after them. *)
Definition bare_except_line (ln : pystr) : Prop :=
  exists w1 w2 w3,
    ln = w1 ++ lit "except" ++ w2 ++ lit ":" ++ w3
    /\ all_space w1 /\ all_space w2 /\ all_space w3.

Definition no_linebreak (l : pystr) : Prop :=
  forallb (fun c => negb (is_linebreak c)) l = true.

(** [terminator t rest]: [t] is the line terminator that the scan removes
    when the text continues with [t ++ rest].  CR LF is one terminator, so a
    lone CR is one only when no LF follows it. *)
Inductive terminator : pystr -> pystr -> Prop :=
| term_crlf (rest : pystr) : terminator [CR; LF] rest
| term_one (c : N) (rest : pystr) :
    is_linebreak c = true ->
    (c = CR -> forall r, rest <> LF :: r) ->
    terminator [c] rest.

(** [Lines text ls]: [text] is the lines [ls], each followed by its
    terminator, the last one possibly unterminated when it is not empty. *)
Inductive Lines : pystr -> list pystr -> Prop :=
| Lines_nil : Lines [] []
| Lines_last (l : pystr) : l <> [] -> no_linebreak l -> Lines l [l]
| Lines_cons (l t rest : pystr) (ls : list pystr) :
    no_linebreak l -> terminator t rest -> Lines rest ls ->
    Lines (l ++ t ++ rest) (l :: ls).

(** The text does not end in a line boundary (and is not empty): its last
    line is unterminated. *)
Fixpoint open_line (s : pystr) : bool :=
  match s with
  | [] => false
  | [c] => negb (is_linebreak c)
  | _ :: s' => open_line s'
  end.

Definition count_linebreaks (s : pystr) : nat :=
  List.length (filter is_linebreak s).

(** Occurrences of CR immediately followed by LF. *)
Fixpoint count_crlf (s : pystr) : nat :=
  match s with
  | [] => 0
  | c :: s' =>
      match s' with
      | d :: _ => if ((c =? CR) && (d =? LF))%N then 1 else 0
      | [] => 0
      end + count_crlf s'
  end.

(** LF is the only line boundary character of the text. *)
Definition lf_only (s : pystr) : Prop :=
  forall c, In c s -> is_linebreak c = true -> c = LF.

(** The segments of a text delimited by the newline character, as
    [text.split("\n")] gives them: the reading of the words
    "newline-delimited segments". *)
Fixpoint newline_segments_from (acc : pystr) (s : pystr) : list pystr :=
  match s with
  | [] => [rev acc]
  | c :: s' =>
      if (c =? LF)%N then rev acc :: newline_segments_from [] s'
      else newline_segments_from (c :: acc) s'
  end.

Definition newline_segments (text : pystr) : list pystr :=
  newline_segments_from [] text.

(** The same segments when a newline ends a line instead of separating two:
    nothing follows the last newline. *)
Definition newline_terminated_count (text : pystr) : nat :=
  count_occ N.eq_dec text LF + (if open_line text then 1 else 0).

(** [pre] is empty or ends in a line boundary; [post] is empty or starts
    with one. *)
Definition ends_line (pre : pystr) : Prop :=
  pre = [] \/ exists p c, pre = p ++ [c] /\ is_linebreak c = true.

Definition starts_terminator (post : pystr) : Prop :=
  post = [] \/ exists c q, post = c :: q /\ is_linebreak c = true.


(** What line [i] contributes to the result. *)
Definition line_issues (filename : pystr) (i : nat) (ln : pystr) : list Issue :=
  check_line filename i ln [].

(** The four checks, each contributing nothing or one finding. *)
Definition style_check (filename : pystr) (i : nat) (ln : pystr) : list Issue :=
  if 120 <? length ln
  then [mkIssue filename i Style (style_message (length ln)) ln] else [].

Definition todo_check (filename : pystr) (i : nat) (ln : pystr) : list Issue :=
  if contains (lit "TODO") ln
  then [mkIssue filename i Maintainability todo_message ln] else [].

Definition print_check (filename : pystr) (i : nat) (ln : pystr) : list Issue :=
  if contains (lit "print(") ln
  then [mkIssue filename i BestPractice print_message ln] else [].

Definition except_check (filename : pystr) (i : nat) (ln : pystr) : list Issue :=
  if re_match bare_except_re ln
  then [mkIssue filename i ErrorHandling except_message ln] else [].

(** The findings reported for line [n], and those of one category. *)
Definition findings_at (n : nat) (l : list Issue) : list Issue :=
  filter (fun x => line x =? n) l.

Definition findings_of (cat : pystr) (n : nat) (l : list Issue) : list Issue :=
  filter (fun x => pystr_eqb (category x) cat) (findings_at n l).

(** The order in which the checks run. *)
Inductive category_before : pystr -> pystr -> Prop :=
| before_S_M : category_before Style Maintainability
| before_S_B : category_before Style BestPractice
| before_S_E : category_before Style ErrorHandling
| before_M_B : category_before Maintainability BestPractice
| before_M_E : category_before Maintainability ErrorHandling
| before_B_E : category_before BestPractice ErrorHandling.

Definition issue_before (a b : Issue) : Prop :=
  line a < line b
  \/ (line a = line b /\ category_before (category a) (category b)).

Definition is_category (c : pystr) : Prop :=
  c = Style \/ c = Maintainability \/ c = BestPractice \/ c = ErrorHandling.

(** ** The loop as a transition system

    One transition is one iteration of the [for] loop.  The state holds the
    local variables: the index, the lines not yet visited and the list being
    built.  [World] stands for everything outside the call (module globals,
    the objects of the caller); no statement of [detect_issues] writes to
    it. *)

Section Machine.

Variable World : Type.

Record state : Type := mkState {
  st_world : World;
  st_i : nat;
  st_rest : list pystr;
  st_issues : list Issue
}.

Inductive step (filename : pystr) : state -> state -> Prop :=
| step_line (w : World) (i : nat) (ln : pystr) (rest : list pystr)
    (issues : list Issue) :
    step filename (mkState w i (ln :: rest) issues)
         (mkState w (S i) rest (check_line filename i ln issues)).

Inductive steps (filename : pystr) : nat -> state -> state -> Prop :=
| steps_O (s : state) : steps filename 0 s s
| steps_S (n : nat) (s s' s'' : state) :
    step filename s s' -> steps filename n s' s'' -> steps filename (S n) s s''.

Definition final (s : state) : Prop := st_rest s = [].

(** The state on entry to the loop. *)
Definition init (w : World) (text : pystr) : state :=
  mkState w 1 (splitlines text) [].

End Machine.

Arguments mkState {World}.
Arguments st_world {World}.
Arguments st_i {World}.
Arguments st_rest {World}.
Arguments st_issues {World}.
Arguments step {World}.
Arguments steps {World}.
Arguments final {World}.
Arguments init {World}.

(** ** Sample inputs *)

(** ["x = 1\nprint('debug')  # TODO fix\nexcept:\n"] *)
Definition example_text : pystr :=
  lit "x = 1" ++ [LF] ++ lit "print('debug')  # TODO fix" ++ [LF]
  ++ lit "except:" ++ [LF].

(** A line of [n] characters, all of them the letter a. *)
Definition long_line (n : nat) : pystr := repeat 97%N n.

(** A line of 130 characters with a print call and a TODO marker. *)
Definition busy_line : pystr := lit "print(x) # TODO" ++ long_line 115.

(** ["a\fb"]: two lines for [splitlines], and no newline in it. *)
Definition form_feed_text : pystr := lit "a" ++ [12%N] ++ lit "b".

Definition sample_file : pystr := lit "uploaded_code.py".

(** ** The suggester

    [LLMSuggester.suggest_for_issue] formats a prompt from the finding and
    runs it through the tokenizer and the model.  The prompt is text and is
    modelled in full; the pretrained tokenizer and model are parameters. *)

(** The f-string of [suggest_for_issue]. *)
Definition prompt (issue : Issue) : pystr :=
  lit "File: " ++ file issue ++ [LF]
  ++ lit "Line: " ++ str_of_int (line issue) ++ [LF]
  ++ lit "Category: " ++ category issue ++ [LF]
  ++ lit "Issue: " ++ message issue ++ [LF]
  ++ lit "Snippet:" ++ [LF]
  ++ snippet issue ++ [LF; LF]
  ++ lit "Suggest a fix with explanation.".

Section Suggester.

Variable Tokens : Type.
(** [tokenizer.encode(prompt, return_tensors="pt", max_length=512,
    truncation=True)], [model.generate(inputs, max_length=200,
    num_beams=4)[0]] and [tokenizer.decode(_, skip_special_tokens=True)]. *)
Variable encode : pystr -> Tokens.
Variable generate : Tokens -> Tokens.
Variable decode : Tokens -> pystr.

Definition suggest_for_issue (issue : Issue) : pystr :=
  let inputs := encode (prompt issue) in
  let output := generate inputs in
  decode output.

End Suggester.

(** ** The request handler *)

(** [str.strip()] with no argument: white space removed at both ends. *)
Fixpoint lstrip (s : pystr) : pystr :=
  match s with
  | c :: s' => if is_space c then lstrip s' else s
  | [] => []
  end.

Definition rstrip (s : pystr) : pystr := rev (lstrip (rev s)).

Definition strip (s : pystr) : pystr := rstrip (lstrip s).

(** The truth value of a string: it is not empty. *)
Definition truthy (s : pystr) : bool :=
  match s with
  | [] => false
  | _ :: _ => true
  end.

(** One row handed to the template: the dictionary built in [index], whose
    keys are fixed. *)
Record Metric : Type := mkMetric {
  m_file : pystr;
  m_line : nat;
  m_category : pystr;
  m_message : pystr;
  m_snippet : pystr;
  m_suggestion : pystr
}.

Section Handler.

(** The raw content of an upload, and [bytes.decode("utf-8",
    errors="replace")]. *)
Variable Bytes : Type.
Variable decode_utf8 : Bytes -> pystr.

(** [LLMSuggester().suggest_for_issue] *)
Variable suggest : Issue -> pystr.

(** An uploaded file: its name, which may be missing, and what [read()]
    returns. *)
Record FileStorage : Type := mkFile {
  fs_filename : option pystr;
  fs_content : Bytes
}.

(** What [index] reads of the request: the method, the form field [code]
    and the file field [file]. *)
Record Request : Type := mkRequest {
  rq_method : pystr;
  rq_form_code : option pystr;
  rq_files_file : option FileStorage
}.

(** [file and file.filename]: there is an upload and its name is a
    non-empty string. *)
Definition has_upload (f : option FileStorage) : bool :=
  match f with
  | Some fs =>
      match fs_filename fs with
      | Some name => truthy name
      | None => false
      end
  | None => false
  end.

(** The loop over the findings, appending one row for each. *)
Fixpoint collect_metrics (issues : list Issue) (metrics : list Metric)
    : list Metric :=
  match issues with
  | [] => metrics
  | issue :: rest =>
      let suggestion := suggest issue in
      collect_metrics rest
        (metrics ++ [mkMetric (file issue) (line issue) (category issue)
                       (message issue) (snippet issue) suggestion])
  end.

(** [index()], up to the call of the renderer: the result is the pair of
    [code] and [metrics] that the template receives. *)
Definition index (request : Request) : pystr * list Metric :=
  let code := [] in
  let metrics := [] in
  if pystr_eqb (rq_method request) (lit "POST") then
    let code :=
      match rq_form_code request with
      | Some c => c
      | None => []
      end in
    let code :=
      match rq_files_file request with
      | Some fs => if has_upload (Some fs) then decode_utf8 (fs_content fs) else code
      | None => code
      end in
    if truthy (strip code) then
      let issues := detect_issues (lit "uploaded_code.py") code in
      (code, collect_metrics issues metrics)
    else (code, metrics)
  else (code, metrics).

End Handler.

Arguments mkFile {Bytes}.
Arguments fs_filename {Bytes}.
Arguments fs_content {Bytes}.
Arguments mkRequest {Bytes}.
Arguments rq_method {Bytes}.
Arguments rq_form_code {Bytes}.
Arguments rq_files_file {Bytes}.
Arguments has_upload {Bytes}.
Arguments index {Bytes}.

(** ** The chart data of the page

    The script of the template counts the rows per category in an object
    and charts its keys and values.  An object is modelled by its own
    properties in insertion order, which is the order of [Object.keys] for
    keys that are not numerals.  Properties inherited from the prototype are
    not modelled: none of the category names is one. *)

Definition jsobject := list (pystr * nat).

(** [o[k]], [None] for [undefined]. *)
Fixpoint obj_get (o : jsobject) (k : pystr) : option nat :=
  match o with
  | [] => None
  | (k', v) :: o' => if pystr_eqb k' k then Some v else obj_get o' k
  end.

(** [o[k] = v]: an existing key keeps its place, a new one goes last. *)
Fixpoint obj_set (o : jsobject) (k : pystr) (v : nat) : jsobject :=
  match o with
  | [] => [(k, v)]
  | (k', v') :: o' =>
      if pystr_eqb k' k then (k', v) :: o' else (k', v') :: obj_set o' k v
  end.

(** [x || 0] *)
Definition or_zero (x : option nat) : nat :=
  match x with
  | Some 0 => 0
  | Some v => v
  | None => 0
  end.

(** [metrics.forEach(m => { counts[m.category] = (counts[m.category] || 0) + 1; })]
    from [counts = {}]. *)
Definition chart_counts (metrics : list Metric) : jsobject :=
  fold_left
    (fun counts m =>
       obj_set counts (m_category m) (or_zero (obj_get counts (m_category m)) + 1))
    metrics [].

Definition chart_labels (metrics : list Metric) : list pystr :=
  map fst (chart_counts metrics).

Definition chart_values (metrics : list Metric) : list nat :=
  map snd (chart_counts metrics).

Definition colors : list pystr :=
  [lit "#e74c3c"; lit "#3498db"; lit "#2ecc71"; lit "#f1c40f";
   lit "#9b59b6"; lit "#1abc9c"; lit "#fd79a8"; lit "#55efc4"].

(** ** Notions used to state how the detector composes *)

(** The finding [x] moved [n] lines down. *)
Definition shift_line (n : nat) (x : Issue) : Issue :=
  mkIssue (file x) (line x + n) (category x) (message x) (snippet x).

(** The finding [x] reported for another file name. *)
Definition with_file (filename : pystr) (x : Issue) : Issue :=
  mkIssue filename (line x) (category x) (message x) (snippet x).

(** The text with every LF turned into CR LF. *)
Definition crlf_endings (text : pystr) : pystr :=
  flat_map (fun c => if (c =? LF)%N then [CR; LF] else [c]) text.

(** The row that [index] builds for a finding. *)
Definition row_issue (m : Metric) : Issue :=
  mkIssue (m_file m) (m_line m) (m_category m) (m_message m) (m_snippet m).

(** The cases of the scan of [splitlines] on a text [c :: s]. *)
Inductive scan_case (c : N) (s : pystr) : Prop :=
| scan_keep : is_linebreak c = false -> scan_case c s
| scan_break : is_linebreak c = true -> c <> CR -> scan_case c s
| scan_cr_end : c = CR -> s = [] -> scan_case c s
| scan_crlf (s' : pystr) : c = CR -> s = LF :: s' -> scan_case c s
| scan_cr (d : N) (s' : pystr) : c = CR -> s = d :: s' -> d <> LF -> scan_case c s.

(** An issue whose texts hold no line boundary. *)
Definition one_line_fields (x : Issue) : Prop :=
  no_linebreak (file x) /\ no_linebreak (category x)
  /\ no_linebreak (message x) /\ no_linebreak (snippet x).

(** The row made of a finding and of the suggestion for it. *)
Definition to_metric (suggest : Issue -> pystr) (x : Issue) : Metric :=
  mkMetric (file x) (line x) (category x) (message x) (snippet x) (suggest x).

(** The rows of one category. *)
Definition rows_of (c : pystr) (metrics : list Metric) : list Metric :=
  filter (fun m => pystr_eqb (m_category m) c) metrics.

(** The counting step of the script, from any object. *)
Definition count_row (counts : jsobject) (m : Metric) : jsobject :=
  obj_set counts (m_category m) (or_zero (obj_get counts (m_category m)) + 1).

(** Inputs for the handler: an upload is its text, the model answers
    ["fix"]. *)
Definition sample_suggest (x : Issue) : pystr := lit "fix".

Definition sample_request : Request pystr :=
  mkRequest (lit "POST") (Some example_text) None.

(** * Properties of the primitives *)

(** ** The primitives on small inputs *)

(** ["a\r\nb\fc\r\r\n\nd".splitlines()] is [['a', 'b', 'c', '', '', 'd']]. *)
Example splitlines_mixed :
  splitlines (lit "a" ++ [CR; LF] ++ lit "b" ++ [12%N] ++ lit "c" ++ [CR]
              ++ [CR; LF; LF] ++ lit "d")
  = [lit "a"; lit "b"; lit "c"; []; []; lit "d"].
Proof. reflexivity. Qed.

(** A newline at the end opens no further line, and the empty text has
    none. *)
Example splitlines_trailing :
  splitlines (lit "a" ++ [LF]) = [lit "a"] /\ splitlines [] = []
  /\ splitlines [LF] = [[]].
Proof. repeat split. Qed.

Example re_match_samples :
  re_match bare_except_re (lit "  except  :  ") = true
  /\ re_match bare_except_re (lit "except:" ++ [LF]) = true
  /\ re_match bare_except_re (lit "except ValueError:") = false
  /\ re_match bare_except_re (lit "except: pass") = false
  /\ re_match bare_except_re (lit "x except:") = false.
Proof. repeat split. Qed.

Example contains_samples :
  contains (lit "TODO") (lit "myTODOlist") = true
  /\ contains (lit "TODO") (lit "todo") = false
  /\ contains (lit "print(") (lit "print (x)") = false.
Proof. repeat split. Qed.

Example style_message_121 :
  style_message 121 = lit "Line length 121 exceeds 120 chars".
Proof. reflexivity. Qed.

(** ** Substring search *)

Lemma startswith_spec (p s : pystr) :
  startswith p s = true <-> exists b, s = p ++ b.
Proof.
  revert s; induction p as [|a p IH]; intros s; simpl.
  - split; [intros _; now exists s | trivial].
  - destruct s as [|b s]; simpl.
    + split; [discriminate | intros [r Hr]; discriminate].
    + rewrite andb_true_iff, N.eqb_eq, IH. split.
      * intros [-> [r ->]]. now exists r.
      * intros [r Hr]. injection Hr as -> ->. split; [reflexivity | now exists r].
Qed.

Lemma contains_spec (needle hay : pystr) :
  contains needle hay = true <-> substring needle hay.
Proof.
  unfold substring. induction hay as [|c hay IH].
  - cbn [contains]. rewrite orb_false_r, startswith_spec. split.
    + intros [b Hb]. now exists [], b.
    + intros [a [b Hab]]. destruct a as [|x a]; [now exists b | discriminate].
  - cbn [contains]. rewrite orb_true_iff, startswith_spec, IH. split.
    + intros [[b Hb] | [a [b Hab]]].
      * now exists [], b.
      * exists (c :: a), b. now rewrite Hab.
    + intros [a [b Hab]]. destruct a as [|x a].
      * left. now exists b.
      * right. injection Hab as _ Hab. now exists a, b.
Qed.

Lemma contains_false (needle hay : pystr) :
  contains needle hay = false <-> ~ substring needle hay.
Proof.
  rewrite <- contains_spec. destruct (contains needle hay); split; congruence.
Qed.

(** ** The matcher *)

Lemma match_star_cons a p b c s :
  match_here (Star a :: p) b (c :: s)
  = (cset_test a c && match_here (Star a :: p) false s) || match_here p b (c :: s).
Proof. reflexivity. Qed.

Lemma match_star_nil a p b :
  match_here (Star a :: p) b [] = match_here p b [].
Proof. reflexivity. Qed.

(** Without [^] in the pattern the start flag is not looked at. *)
Lemma match_here_flag (p : regex) :
  ~ In Bol p -> forall b b' s, match_here p b s = match_here p b' s.
Proof.
  induction p as [|n p IH]; intros Hn; [reflexivity|].
  assert (Hp : ~ In Bol p) by (intros H; apply Hn; now right).
  specialize (IH Hp).
  destruct n as [a|a| |].
  - intros b b' [|c s]; reflexivity.
  - intros b b' s. revert b b'. induction s as [|c s IHs]; intros b b'.
    + rewrite !match_star_nil. apply IH.
    + rewrite !match_star_cons. f_equal. apply IH.
  - exfalso. apply Hn. now left.
  - intros b b' s. cbn [match_here]. f_equal. apply IH.
Qed.

(** A star takes some run of characters of its class and hands over. *)
Lemma match_star_spec a (p : regex) :
  ~ In Bol p ->
  forall b s,
    match_here (Star a :: p) b s = true <->
    exists w r, s = w ++ r /\ forallb (cset_test a) w = true
                /\ match_here p false r = true.
Proof.
  intros Hp b s. revert b. induction s as [|c s IH]; intros b.
  - rewrite match_star_nil, (match_here_flag p Hp b false). split.
    + intros H. now exists [], [].
    + intros (w & r & Hs & _ & Hm).
      symmetry in Hs. apply app_eq_nil in Hs. destruct Hs as [_ ->]. exact Hm.
  - rewrite match_star_cons, orb_true_iff, andb_true_iff, IH.
    rewrite (match_here_flag p Hp b false). split.
    + intros [[Hc (w & r & -> & Hw & Hm)] | Hm].
      * exists (c :: w), r. cbn [forallb app]. now rewrite Hc, Hw.
      * now exists [], (c :: s).
    + intros (w & r & Hs & Hw & Hm). destruct w as [|x w].
      * right. cbn [app] in Hs. now rewrite Hs.
      * left. cbn [app forallb] in Hs, Hw. injection Hs as -> ->.
        apply andb_true_iff in Hw. destruct Hw as [Hx Hw].
        split; [exact Hx | now exists w, r].
Qed.

Lemma literal_no_bol (l : pystr) (p : regex) :
  ~ In Bol p -> ~ In Bol (literal l ++ p).
Proof.
  intros Hp H. apply in_app_or in H. destruct H as [H|H]; [|auto].
  unfold literal in H. apply in_map_iff in H. destruct H as (c & Hc & _).
  discriminate.
Qed.

Lemma match_literal_spec (l : pystr) (p : regex) b s :
  match_here (literal l ++ p) b s = true <->
  exists r, s = l ++ r /\ match_here p (b && match l with [] => true | _ => false end) r = true.
Proof.
  revert b s. induction l as [|x l IH]; intros b s.
  - cbn [literal map app]. rewrite andb_true_r. split.
    + intros H. now exists s.
    + intros (r & -> & H). exact H.
  - cbn [literal map app match_here]. fold (literal l).
    rewrite andb_false_r. destruct s as [|c s].
    + split; [discriminate | intros (r & Hr & _); discriminate].
    + rewrite andb_true_iff, IH. cbn [cset_test]. rewrite N.eqb_eq.
      cbn [andb]. split.
      * intros [-> (r & -> & H)]. exists r. split; [reflexivity|].
        destruct l; exact H.
      * intros (r & Hs & H). injection Hs as -> ->. split; [reflexivity|].
        exists r. split; [reflexivity|]. destruct l; exact H.
Qed.

Lemma match_bol (p : regex) s : match_here (Bol :: p) true s = match_here p true s.
Proof. reflexivity. Qed.

Lemma match_one_spec a (p : regex) b s :
  match_here (One a :: p) b s = true <->
  exists c r, s = c :: r /\ cset_test a c = true /\ match_here p false r = true.
Proof.
  destruct s as [|c s]; cbn [match_here].
  - split; [discriminate | intros (c & r & H & _); discriminate].
  - rewrite andb_true_iff. split.
    + intros [Hc Hm]. now exists c, s.
    + intros (c' & r & Hs & Hc & Hm). injection Hs as -> ->. now split.
Qed.

Lemma match_eol b s : match_here [Eol] b s = at_eol s.
Proof. cbn [match_here]. apply andb_true_r. Qed.

Lemma at_eol_space s : at_eol s = true -> all_space s.
Proof.
  destruct s as [|c [|d s]]; cbn [at_eol]; try discriminate; [reflexivity|].
  intros H. apply N.eqb_eq in H. now subst c.
Qed.

Lemma all_space_app (u v : pystr) : all_space u -> all_space v -> all_space (u ++ v).
Proof.
  unfold all_space. intros Hu Hv. now rewrite forallb_app, Hu, Hv.
Qed.

(** What the pattern of the detector accepts. *)
Lemma bare_except_re_spec (ln : pystr) :
  re_match bare_except_re ln = true <-> bare_except_line ln.
Proof.
  set (tl2 := [One (CLit 58%N); Star CSpace; Eol]).
  set (tl1 := Star CSpace :: tl2).
  assert (N3 : ~ In Bol [Eol]) by (intros [H|[]]; discriminate).
  assert (N2 : ~ In Bol tl2) by (intros [H|[H|[H|[]]]]; discriminate).
  assert (N1 : ~ In Bol tl1) by (intros [H|H]; [discriminate | auto]).
  assert (N0 : ~ In Bol (literal (lit "except") ++ tl1)) by now apply literal_no_bol.
  change (re_match bare_except_re ln)
    with (match_here (Bol :: Star CSpace :: literal (lit "except") ++ tl1) true ln).
  rewrite match_bol, (match_star_spec CSpace _ N0). split.
  - intros (w1 & r1 & -> & Hw1 & Hm).
    apply match_literal_spec in Hm. destruct Hm as (r2 & -> & Hm).
    rewrite (match_here_flag tl1 N1 _ false) in Hm.
    apply (match_star_spec CSpace tl2 N2) in Hm. destruct Hm as (w2 & r3 & -> & Hw2 & Hm).
    apply match_one_spec in Hm. destruct Hm as (c & r4 & -> & Hc & Hm).
    cbn [cset_test] in Hc. apply N.eqb_eq in Hc. subst c.
    apply (match_star_spec CSpace [Eol] N3) in Hm. destruct Hm as (w3 & r5 & -> & Hw3 & Hm).
    rewrite match_eol in Hm.
    exists w1, w2, (w3 ++ r5). repeat split.
    + exact Hw1.
    + exact Hw2.
    + apply all_space_app; [exact Hw3 | now apply at_eol_space].
  - intros (w1 & w2 & w3 & -> & H1 & H2 & H3).
    exists w1, (lit "except" ++ w2 ++ lit ":" ++ w3). repeat split; [exact H1|].
    apply match_literal_spec. exists (w2 ++ lit ":" ++ w3). split; [reflexivity|].
    rewrite (match_here_flag tl1 N1 _ false).
    apply (match_star_spec CSpace tl2 N2). exists w2, (lit ":" ++ w3).
    repeat split; [exact H2|].
    apply match_one_spec. exists 58%N, w3. repeat split.
    apply (match_star_spec CSpace [Eol] N3). exists w3, []. repeat split.
    + now rewrite app_nil_r.
    + exact H3.
Qed.

Lemma bare_except_re_false (ln : pystr) :
  re_match bare_except_re ln = false <-> ~ bare_except_line ln.
Proof.
  rewrite <- bare_except_re_spec. destruct (re_match bare_except_re ln); split; congruence.
Qed.

(** ** Splitting into lines *)

Lemma no_linebreak_app (u v : pystr) :
  no_linebreak (u ++ v) <-> no_linebreak u /\ no_linebreak v.
Proof. unfold no_linebreak. now rewrite forallb_app, andb_true_iff. Qed.

Lemma no_linebreak_one (c : N) : is_linebreak c = false -> no_linebreak [c].
Proof. unfold no_linebreak. cbn [forallb]. now intros ->. Qed.

Lemma splitlines_from_Lines (n : nat) :
  forall s acc, length s <= n -> no_linebreak (rev acc) ->
    Lines (rev acc ++ s) (splitlines_from acc s).
Proof.
  induction n as [|n IH]; intros s acc Hlen Hacc.
  - destruct s; [|cbn in Hlen; lia].
    rewrite app_nil_r. destruct acc as [|a acc]; [constructor|].
    cbn [splitlines_from]. constructor; [|exact Hacc].
    cbn [rev]. intros H. apply app_eq_nil in H. destruct H; discriminate.
  - destruct s as [|c s'].
    + rewrite app_nil_r. destruct acc as [|a acc]; [constructor|].
      cbn [splitlines_from]. constructor; [|exact Hacc].
      cbn [rev]. intros H. apply app_eq_nil in H. destruct H; discriminate.
    + cbn [length] in Hlen. cbn [splitlines_from].
      destruct (is_linebreak c) eqn:Hc.
      * destruct s' as [|d s''].
        -- apply (Lines_cons (rev acc) [c] [] []); [exact Hacc| |constructor].
           constructor; [exact Hc | intros _ r; discriminate].
        -- destruct ((c =? CR)%N && (d =? LF)%N) eqn:E.
           ++ apply andb_true_iff in E. destruct E as [E1 E2].
              apply N.eqb_eq in E1, E2. subst c d.
              apply (Lines_cons (rev acc) [CR; LF] s''); [exact Hacc|constructor|].
              apply (IH s'' []); [cbn [length] in Hlen; lia | reflexivity].
           ++ apply (Lines_cons (rev acc) [c] (d :: s'')); [exact Hacc| |].
              ** constructor; [exact Hc|]. intros -> r Hr. injection Hr as -> _.
                 discriminate E.
              ** apply (IH (d :: s'') []); [lia | reflexivity].
      * replace (rev acc ++ c :: s') with (rev (c :: acc) ++ s')
          by (cbn [rev]; now rewrite <- app_assoc).
        apply IH; [lia|]. cbn [rev]. apply no_linebreak_app. split; [exact Hacc|].
        now apply no_linebreak_one.
Qed.

(** [splitlines] cuts the text at its line boundaries. *)
Lemma splitlines_Lines (text : pystr) : Lines text (splitlines text).
Proof.
  apply (splitlines_from_Lines (length text) text []); [lia | reflexivity].
Qed.

Lemma Lines_no_linebreak text ls : Lines text ls -> Forall no_linebreak ls.
Proof.
  induction 1; constructor; auto.
Qed.

Lemma terminator_first t rest :
  terminator t rest -> exists c q, t ++ rest = c :: q /\ is_linebreak c = true.
Proof.
  intros [r | c r Hc _].
  - now exists CR, (LF :: r).
  - now exists c, r.
Qed.

Lemma terminator_last t rest :
  terminator t rest -> exists p c, t = p ++ [c] /\ is_linebreak c = true.
Proof.
  intros [r | c r Hc _].
  - now exists [CR], LF.
  - now exists [], c.
Qed.

Lemma terminator_prefix t u v : terminator t (u ++ v) -> terminator t u.
Proof.
  intros H. remember (u ++ v) as rest eqn:E. destruct H as [r | c r Hc Hn].
  - constructor.
  - constructor; [exact Hc|]. intros Hcr q Hq. subst u r.
    now apply (Hn Hcr (q ++ v)).
Qed.

(** Every line of the split stands in the text as it is, after the lines
    before it and their terminators, and up to the next line boundary or the
    end of the text. *)
Lemma Lines_segment text ls :
  Lines text ls ->
  forall k l, nth_error ls k = Some l ->
    exists pre post, text = pre ++ l ++ post
                     /\ ends_line pre /\ starts_terminator post
                     /\ Lines pre (firstn k ls).
Proof.
  induction 1 as [|l Hne Hl|l t rest ls Hl Ht HL IH]; intros k x Hk.
  - destruct k; discriminate.
  - destruct k as [|k]; [|destruct k; discriminate].
    injection Hk as <-. exists [], []. rewrite app_nil_r.
    repeat split; solve [now left | constructor].
  - destruct k as [|k].
    + injection Hk as <-. exists [], (t ++ rest).
      repeat split; [now left| |constructor].
      right. now apply terminator_first.
    + cbn [nth_error] in Hk.
      destruct (IH k x Hk) as (pre & post & E & Hpre & Hpost & HLp).
      exists (l ++ t ++ pre), post. repeat split.
      * rewrite E. now rewrite <- !app_assoc.
      * right. destruct Hpre as [-> | (p & c & -> & Hc)].
        -- destruct (terminator_last t _ Ht) as (p & c & -> & Hc).
           exists (l ++ p), c. rewrite app_nil_r, app_assoc. now split.
        -- exists (l ++ t ++ p), c. split; [|exact Hc].
           now rewrite <- !app_assoc.
      * exact Hpost.
      * cbn [firstn]. apply Lines_cons; [exact Hl| |exact HLp].
        rewrite E in Ht. now apply terminator_prefix in Ht.
Qed.

(** The decomposition is unique, so [Lines] says what [splitlines] returns. *)
Lemma first_linebreak_unique (l l' x x' : pystr) :
  no_linebreak l -> no_linebreak l' ->
  starts_terminator x -> x <> [] -> starts_terminator x' -> x' <> [] ->
  l ++ x = l' ++ x' -> l = l' /\ x = x'.
Proof.
  intros Hl Hl' [->|(c & q & -> & Hc)] Hx [->|(c' & q' & -> & Hc')] Hx';
    try congruence.
  clear Hx Hx'. revert l' Hl Hl'. induction l as [|a l IH]; intros [|a' l'] Hl Hl' E.
  - now split.
  - cbn [app] in E. injection E as <- _.
    unfold no_linebreak in Hl'. cbn [forallb] in Hl'. rewrite Hc in Hl'. discriminate.
  - cbn [app] in E. injection E as -> _.
    unfold no_linebreak in Hl. cbn [forallb] in Hl. rewrite Hc' in Hl. discriminate.
  - cbn [app] in E. injection E as <- E.
    unfold no_linebreak in Hl, Hl'. cbn [forallb] in Hl, Hl'.
    apply andb_true_iff in Hl, Hl'. destruct Hl as [_ Hl], Hl' as [_ Hl'].
    destruct (IH l' Hl Hl' E) as [-> E']. now split.
Qed.

Lemma terminator_starts t rest : terminator t rest -> starts_terminator (t ++ rest).
Proof. intros H. right. now apply terminator_first. Qed.

Lemma terminator_nonempty t rest : terminator t rest -> t ++ rest <> [].
Proof. intros [r | c r _ _]; discriminate. Qed.

Lemma terminator_unique t rest t' rest' :
  terminator t rest -> terminator t' rest' ->
  t ++ rest = t' ++ rest' -> t = t' /\ rest = rest'.
Proof.
  intros [r | c r Hc Hn] [r' | c' r' Hc' Hn'] E; cbn [app] in E.
  - injection E as ->. now split.
  - injection E as <- <-. exfalso. now apply (Hn' eq_refl r).
  - injection E as -> ->. exfalso. now apply (Hn eq_refl r').
  - injection E as -> ->. now split.
Qed.

Lemma no_linebreak_terminator l t rest :
  no_linebreak (l ++ t ++ rest) -> terminator t rest -> False.
Proof.
  intros H Ht. apply no_linebreak_app in H. destruct H as [_ H].
  destruct (terminator_first t rest Ht) as (c & q & E & Hc). rewrite E in H.
  unfold no_linebreak in H. cbn [forallb] in H. rewrite Hc in H. discriminate.
Qed.

Lemma terminated_nonempty l t rest : terminator t rest -> l ++ t ++ rest <> [].
Proof.
  intros Ht E. apply app_eq_nil in E. destruct E as [_ E].
  now apply (terminator_nonempty t rest).
Qed.

Lemma Lines_functional text ls1 :
  Lines text ls1 -> forall ls2, Lines text ls2 -> ls1 = ls2.
Proof.
  induction 1 as [|l Hne Hl|l t rest ls Hl Ht HL IH]; intros ls2 H2.
  - remember [] as text eqn:Et in H2.
    destruct H2 as [|l' Hne' Hl'|l' t' rest' ls' Hl' Ht' HL'].
    + reflexivity.
    + congruence.
    + exfalso. now apply (terminated_nonempty l' t' rest').
  - remember l as text eqn:Et in H2.
    destruct H2 as [|l' Hne' Hl'|l' t' rest' ls' Hl' Ht' HL'].
    + congruence.
    + now subst.
    + exfalso. subst l. now apply (no_linebreak_terminator l' t' rest').
  - remember (l ++ t ++ rest) as text eqn:Et in H2.
    destruct H2 as [|l' Hne' Hl'|l' t' rest' ls' Hl' Ht' HL'].
    + exfalso. symmetry in Et. now apply (terminated_nonempty l t rest).
    + exfalso. subst l'. now apply (no_linebreak_terminator l t rest).
    + destruct (first_linebreak_unique l' l (t' ++ rest') (t ++ rest)) as [-> E'];
        auto using terminator_starts, terminator_nonempty.
      destruct (terminator_unique t' rest' t rest Ht' Ht E') as [-> ->].
      f_equal. now apply IH.
Qed.

Lemma splitlines_iff_Lines text ls : splitlines text = ls <-> Lines text ls.
Proof.
  split.
  - intros <-. apply splitlines_Lines.
  - intros H. apply (Lines_functional text _ (splitlines_Lines text) _ H).
Qed.

(** ** Counting the lines *)

Lemma count_linebreaks_app (u v : pystr) :
  count_linebreaks (u ++ v) = count_linebreaks u + count_linebreaks v.
Proof. unfold count_linebreaks. now rewrite filter_app, length_app. Qed.

Lemma count_linebreaks_none (l : pystr) : no_linebreak l -> count_linebreaks l = 0.
Proof.
  unfold no_linebreak, count_linebreaks. induction l as [|c l IH]; [reflexivity|].
  cbn [forallb filter]. intros H. apply andb_true_iff in H. destruct H as [Hc Hl].
  destruct (is_linebreak c); [discriminate | now apply IH].
Qed.

Lemma count_crlf_skip (l s : pystr) :
  no_linebreak l -> count_crlf (l ++ s) = count_crlf s.
Proof.
  unfold no_linebreak. induction l as [|c l IH]; [reflexivity|].
  cbn [forallb app count_crlf]. intros H. apply andb_true_iff in H.
  destruct H as [Hc Hl]. rewrite (IH Hl).
  assert (E : (c =? CR)%N = false).
  { destruct (N.eqb_spec c CR) as [->|]; [discriminate Hc | reflexivity]. }
  rewrite E. now destruct (l ++ s).
Qed.

Lemma open_line_app (u v : pystr) : v <> [] -> open_line (u ++ v) = open_line v.
Proof.
  intros Hv. induction u as [|c u IH]; [reflexivity|].
  cbn [app]. destruct (u ++ v) eqn:E.
  - apply app_eq_nil in E. destruct E; congruence.
  - cbn [open_line]. exact IH.
Qed.

Lemma open_line_none (l : pystr) : l <> [] -> no_linebreak l -> open_line l = true.
Proof.
  unfold no_linebreak. induction l as [|c l IH]; [congruence|].
  intros _ H. cbn [forallb] in H. apply andb_true_iff in H. destruct H as [Hc Hl].
  destruct l as [|d l]; [exact Hc|]. cbn [open_line]. apply IH; [discriminate | exact Hl].
Qed.

Lemma Lines_of_nil ls : Lines [] ls -> ls = [].
Proof. intros H. symmetry. apply (Lines_functional [] [] Lines_nil ls H). Qed.

Lemma open_line_terminated l t rest :
  terminator t rest -> open_line (l ++ t ++ rest) = open_line rest.
Proof.
  intros Ht. destruct rest as [|d rest].
  - rewrite app_nil_r. destruct (terminator_last t [] Ht) as (p & c & -> & Hc).
    rewrite app_assoc, open_line_app by discriminate. cbn [open_line]. now rewrite Hc.
  - rewrite app_assoc. apply open_line_app. discriminate.
Qed.

(** The lines are as many as the line boundaries, CR LF counting once, and
    one more when the last line is unterminated. *)
Lemma Lines_count text ls :
  Lines text ls ->
  length ls + count_crlf text
  = count_linebreaks text + (if open_line text then 1 else 0).
Proof.
  induction 1 as [|l Hne Hl|l t rest ls Hl Ht HL IH].
  - reflexivity.
  - rewrite (open_line_none l Hne Hl), (count_linebreaks_none l Hl).
    rewrite <- (app_nil_r l) at 2. rewrite (count_crlf_skip l [] Hl). reflexivity.
  - rewrite (open_line_terminated l t rest Ht), (count_crlf_skip _ _ Hl).
    rewrite !count_linebreaks_app, (count_linebreaks_none l Hl).
    cbn [length]. destruct Ht as [r | c r Hc Hn].
    + change (count_crlf ([CR; LF] ++ r)) with (1 + (match r with
        | d :: _ => if ((LF =? CR) && (d =? LF))%N then 1 else 0
        | [] => 0 end + count_crlf r)).
      change (count_linebreaks [CR; LF]) with 2.
      replace (match r with
        | d :: _ => if ((LF =? CR) && (d =? LF))%N then 1 else 0
        | [] => 0 end) with 0 by now destruct r.
      lia.
    + assert (E : count_crlf ([c] ++ r) = count_crlf r).
      { cbn [app count_crlf]. destruct r as [|d r]; [reflexivity|].
        destruct (N.eqb_spec c CR) as [->|]; [|reflexivity].
        destruct (N.eqb_spec d LF) as [->|]; [|reflexivity].
        exfalso. now apply (Hn eq_refl r). }
      rewrite E. unfold count_linebreaks at 1. cbn [filter]. rewrite Hc. cbn [length].
      lia.
Qed.

Lemma lf_only_cons c s : lf_only (c :: s) -> lf_only s.
Proof. intros H d Hd. apply H. now right. Qed.

Lemma lf_only_counts (s : pystr) :
  lf_only s -> count_crlf s = 0 /\ count_linebreaks s = count_occ N.eq_dec s LF.
Proof.
  induction s as [|c s IH]; intros H; [now split|].
  destruct (IH (lf_only_cons c s H)) as [E1 E2]. split.
  - cbn [count_crlf]. rewrite E1.
    assert (E : (c =? CR)%N = false).
    { destruct (N.eqb_spec c CR) as [->|]; [|reflexivity].
      assert (CR = LF) by (apply H; [now left | reflexivity]). discriminate. }
    rewrite E. now destruct s.
  - unfold count_linebreaks in *. cbn [filter count_occ].
    destruct (N.eq_dec c LF) as [->|Hne].
    + cbn [is_linebreak]. change (is_linebreak LF) with true. cbn [length].
      now rewrite E2.
    + destruct (is_linebreak c) eqn:Hc; [|exact E2].
      exfalso. apply Hne. apply H; [now left | exact Hc].
Qed.

Lemma splitlines_lf_only (text : pystr) :
  lf_only text -> length (splitlines text) = newline_terminated_count text.
Proof.
  intros H. pose proof (Lines_count text _ (splitlines_Lines text)) as E.
  destruct (lf_only_counts text H) as [E1 E2]. unfold newline_terminated_count.
  lia.
Qed.

Lemma newline_segments_from_length (s acc : pystr) :
  length (newline_segments_from acc s) = S (count_occ N.eq_dec s LF).
Proof.
  revert acc. induction s as [|c s IH]; intros acc; [reflexivity|].
  cbn [newline_segments_from count_occ].
  destruct (N.eqb_spec c LF) as [->|Hne].
  - destruct (N.eq_dec LF LF); [|congruence]. cbn [length]. now rewrite IH.
  - destruct (N.eq_dec c LF); [congruence|]. apply IH.
Qed.

Lemma newline_segments_length (text : pystr) :
  length (newline_segments text) = S (count_occ N.eq_dec text LF).
Proof. apply newline_segments_from_length. Qed.

(** * Properties of the analyzer *)

Lemma pystr_eqb_eq (a b : pystr) : pystr_eqb a b = true <-> a = b.
Proof.
  revert b. induction a as [|x a IH]; intros [|y b]; cbn [pystr_eqb];
    try (split; [discriminate | congruence]); [now split|].
  rewrite andb_true_iff, N.eqb_eq, IH. split.
  - now intros [-> ->].
  - intros E. injection E as -> ->. now split.
Qed.

(** ** One line *)

Lemma check_line_unfold filename i ln issues :
  check_line filename i ln issues
  = issues ++ style_check filename i ln ++ todo_check filename i ln
    ++ print_check filename i ln ++ except_check filename i ln.
Proof.
  unfold check_line, style_check, todo_check, print_check, except_check.
  destruct (120 <? length ln), (contains (lit "TODO") ln),
    (contains (lit "print(") ln), (re_match bare_except_re ln);
    cbn [app]; rewrite <- ?app_assoc, ?app_nil_r; reflexivity.
Qed.

Lemma line_issues_unfold filename i ln :
  line_issues filename i ln
  = style_check filename i ln ++ todo_check filename i ln
    ++ print_check filename i ln ++ except_check filename i ln.
Proof. unfold line_issues. now rewrite check_line_unfold. Qed.

Lemma check_line_app filename i ln issues :
  check_line filename i ln issues = issues ++ line_issues filename i ln.
Proof. now rewrite check_line_unfold, line_issues_unfold. Qed.

Ltac split_checks :=
  unfold style_check, todo_check, print_check, except_check;
  repeat match goal with
         | |- context [if ?c then _ else _] => destruct c
         end.

Lemma line_issues_fields filename i ln x :
  In x (line_issues filename i ln) ->
  file x = filename /\ line x = i /\ snippet x = ln /\ is_category (category x).
Proof.
  rewrite line_issues_unfold. unfold is_category. split_checks; cbn [app In];
    intros H; repeat (destruct H as [<-|H]; [cbn; tauto|]); destruct H.
Qed.

Lemma line_issues_sorted filename i ln :
  StronglySorted issue_before (line_issues filename i ln).
Proof.
  rewrite line_issues_unfold. split_checks; cbn [app];
    repeat first [apply SSorted_nil | apply SSorted_cons
                 | apply Forall_nil | apply Forall_cons];
    right; cbn [line category]; (split; [reflexivity | constructor]).
Qed.

Lemma line_issues_length filename i ln : length (line_issues filename i ln) <= 4.
Proof. rewrite line_issues_unfold. split_checks; cbn [app length]; lia. Qed.

(** ** The loop *)

Lemma detect_loop_app filename lines :
  forall i issues,
    detect_loop filename i lines issues
    = issues ++ detect_loop filename i lines [].
Proof.
  induction lines as [|ln rest IH]; intros i issues; cbn [detect_loop].
  - now rewrite app_nil_r.
  - rewrite (IH (S i) (check_line filename i ln issues)).
    rewrite (IH (S i) (check_line filename i ln [])).
    rewrite (check_line_app filename i ln issues). fold (line_issues filename i ln).
    now rewrite app_assoc.
Qed.

Lemma detect_loop_cons filename i ln rest :
  detect_loop filename i (ln :: rest) []
  = line_issues filename i ln ++ detect_loop filename (S i) rest [].
Proof. cbn [detect_loop]. now rewrite detect_loop_app. Qed.

Lemma detect_loop_In filename lines :
  forall i x, In x (detect_loop filename i lines []) ->
    exists k ln, nth_error lines k = Some ln /\ line x = i + k
                 /\ In x (line_issues filename (i + k) ln).
Proof.
  induction lines as [|ln rest IH]; intros i x Hx; [destruct Hx|].
  rewrite detect_loop_cons in Hx. apply in_app_or in Hx. destruct Hx as [Hx|Hx].
  - exists 0, ln. rewrite Nat.add_0_r. repeat split; [|exact Hx].
    now apply line_issues_fields in Hx.
  - destruct (IH (S i) x Hx) as (k & l & Hk & Hl & Hin).
    exists (S k), l. rewrite Nat.add_succ_r. now repeat split.
Qed.

Lemma findings_at_line_issues filename i ln n :
  findings_at n (line_issues filename i ln)
  = if i =? n then line_issues filename i ln else [].
Proof.
  unfold findings_at. destruct (Nat.eqb_spec i n) as [->|Hne].
  - apply forallb_filter_id. apply forallb_forall. intros x Hx.
    apply line_issues_fields in Hx. destruct Hx as (_ & -> & _).
    apply Nat.eqb_refl.
  - generalize (line_issues_fields filename i ln).
    induction (line_issues filename i ln) as [|y l IH]; intros H; [reflexivity|].
    cbn [filter]. destruct (Nat.eqb_spec (line y) n) as [E|_].
    + exfalso. apply Hne. rewrite <- E. symmetry. apply (H y). now left.
    + apply IH. intros x Hx. apply H. now right.
Qed.

Lemma findings_at_loop filename lines :
  forall i n,
    findings_at n (detect_loop filename i lines [])
    = if i <=? n
      then match nth_error lines (n - i) with
           | Some ln => line_issues filename n ln
           | None => []
           end
      else [].
Proof.
  induction lines as [|ln rest IH]; intros i n.
  - cbn [detect_loop findings_at filter]. destruct (i <=? n); [|reflexivity].
    now destruct (n - i).
  - rewrite detect_loop_cons. unfold findings_at at 1. rewrite filter_app.
    fold (findings_at n (line_issues filename i ln)).
    fold (findings_at n (detect_loop filename (S i) rest [])).
    rewrite findings_at_line_issues, IH.
    destruct (Nat.eqb_spec i n) as [->|Hne].
    + rewrite Nat.leb_refl, Nat.sub_diag. cbn [nth_error].
      destruct (Nat.leb_spec (S n) n); [lia|]. now rewrite app_nil_r.
    + cbn [app]. destruct (Nat.leb_spec (S i) n), (Nat.leb_spec i n); try lia;
        [|reflexivity].
      replace (n - i) with (S (n - S i)) by lia. reflexivity.
Qed.

(** The findings for a line of the text are what the four checks give on
    that line. *)
Lemma findings_at_detect filename text k ln :
  nth_error (splitlines text) k = Some ln ->
  findings_at (S k) (detect_issues filename text) = line_issues filename (S k) ln.
Proof.
  intros H. unfold detect_issues. rewrite findings_at_loop.
  cbn [Nat.leb]. replace (S k - 1) with k by lia. now rewrite H.
Qed.

Lemma findings_at_outside filename text n :
  n = 0 \/ length (splitlines text) < n ->
  findings_at n (detect_issues filename text) = [].
Proof.
  intros H. unfold detect_issues. rewrite findings_at_loop.
  destruct (Nat.leb_spec 1 n); [|reflexivity].
  destruct (nth_error (splitlines text) (n - 1)) eqn:E; [|reflexivity].
  assert (n - 1 < length (splitlines text)) by (apply nth_error_Some; congruence).
  lia.
Qed.

Lemma StronglySorted_app {A : Type} (R : A -> A -> Prop) (l1 l2 : list A) :
  StronglySorted R l1 -> StronglySorted R l2 ->
  (forall x y, In x l1 -> In y l2 -> R x y) ->
  StronglySorted R (l1 ++ l2).
Proof.
  induction 1 as [|a l1 Hs IH Ha]; intros H2 Hx; [exact H2|].
  cbn [app]. constructor.
  - apply IH; [exact H2|]. intros x y Hx1 Hy. apply Hx; [now right | exact Hy].
  - apply Forall_app. split; [exact Ha|].
    apply Forall_forall. intros y Hy. apply Hx; [now left | exact Hy].
Qed.

Lemma detect_loop_sorted filename lines :
  forall i, StronglySorted issue_before (detect_loop filename i lines []).
Proof.
  induction lines as [|ln rest IH]; intros i; [constructor|].
  rewrite detect_loop_cons. apply StronglySorted_app.
  - apply line_issues_sorted.
  - apply IH.
  - intros x y Hx Hy. left.
    apply line_issues_fields in Hx. destruct Hx as (_ & -> & _).
    apply detect_loop_In in Hy. destruct Hy as (k & l & _ & -> & _). lia.
Qed.

Lemma issue_before_le (a b : Issue) : issue_before a b -> line a <= line b.
Proof. intros [H|[H _]]; lia. Qed.

Lemma StronglySorted_weaken {A : Type} (R S : A -> A -> Prop) (l : list A) :
  (forall a b, R a b -> S a b) -> StronglySorted R l -> StronglySorted S l.
Proof.
  intros HRS. induction 1 as [|a l Hs IH Ha]; constructor; [exact IH|].
  apply Forall_forall. intros b Hb. apply HRS.
  now apply (proj1 (Forall_forall _ _) Ha).
Qed.

(** The pattern accepts only white space and the characters of
    ["except:"]. *)
Lemma bare_except_chars ln c :
  bare_except_line ln -> In c ln -> is_space c = true \/ In c (lit "except:").
Proof.
  intros (w1 & w2 & w3 & -> & H1 & H2 & H3) Hc.
  unfold all_space in *. rewrite forallb_forall in H1, H2, H3.
  repeat (apply in_app_or in Hc; destruct Hc as [Hc|Hc]); auto.
  - right. change (lit "except:") with (lit "except" ++ lit ":").
    apply in_or_app. now left.
  - right. change (lit "except:") with (lit "except" ++ lit ":").
    apply in_or_app. now right.
Qed.

Lemma substring_In needle hay c : substring needle hay -> In c needle -> In c hay.
Proof.
  intros (a & b & ->) Hc. apply in_or_app. right. apply in_or_app. now left.
Qed.

Lemma bare_except_no_todo ln :
  bare_except_line ln -> ~ substring (lit "TODO") ln.
Proof.
  intros Hb Hs.
  assert (Hc : In 84%N ln) by (apply (substring_In _ _ _ Hs); now left).
  destruct (bare_except_chars ln 84%N Hb Hc) as [H|H]; [discriminate|].
  cbn in H. repeat (destruct H as [H|H]; [discriminate|]). destruct H.
Qed.

(** ** The findings of one category *)

Lemma findings_of_detect cat filename text k ln :
  nth_error (splitlines text) k = Some ln ->
  findings_of cat (S k) (detect_issues filename text)
  = filter (fun x => pystr_eqb (category x) cat) (line_issues filename (S k) ln).
Proof. intros H. unfold findings_of. now rewrite (findings_at_detect _ _ _ _ H). Qed.

Lemma findings_of_style filename text k ln :
  nth_error (splitlines text) k = Some ln ->
  findings_of Style (S k) (detect_issues filename text) = style_check filename (S k) ln.
Proof.
  intros H. rewrite (findings_of_detect _ _ _ _ _ H), line_issues_unfold.
  split_checks; reflexivity.
Qed.

Lemma findings_of_todo filename text k ln :
  nth_error (splitlines text) k = Some ln ->
  findings_of Maintainability (S k) (detect_issues filename text)
  = todo_check filename (S k) ln.
Proof.
  intros H. rewrite (findings_of_detect _ _ _ _ _ H), line_issues_unfold.
  split_checks; reflexivity.
Qed.

Lemma findings_of_print filename text k ln :
  nth_error (splitlines text) k = Some ln ->
  findings_of BestPractice (S k) (detect_issues filename text)
  = print_check filename (S k) ln.
Proof.
  intros H. rewrite (findings_of_detect _ _ _ _ _ H), line_issues_unfold.
  split_checks; reflexivity.
Qed.

Lemma findings_of_except filename text k ln :
  nth_error (splitlines text) k = Some ln ->
  findings_of ErrorHandling (S k) (detect_issues filename text)
  = except_check filename (S k) ln.
Proof.
  intros H. rewrite (findings_of_detect _ _ _ _ _ H), line_issues_unfold.
  split_checks; reflexivity.
Qed.

Lemma findings_of_length cat n filename text :
  length (findings_of cat n (detect_issues filename text)) <= 1.
Proof.
  unfold findings_of, detect_issues. rewrite findings_at_loop.
  destruct (1 <=? n); [|cbn; lia].
  destruct (nth_error (splitlines text) (n - 1)) as [ln|]; [|cbn; lia].
  rewrite line_issues_unfold.
  assert (D : forall a b : pystr, pystr_eqb a cat = true -> pystr_eqb b cat = true -> a = b).
  { intros a b Ha Hb. apply pystr_eqb_eq in Ha, Hb. congruence. }
  split_checks; cbn [app filter category];
    repeat match goal with
           | |- context [pystr_eqb ?c cat] => destruct (pystr_eqb c cat) eqn:?
           end; cbn [length]; try lia;
    exfalso;
    match goal with
    | H1 : pystr_eqb ?a cat = true, H2 : pystr_eqb ?b cat = true |- _ =>
        lazymatch a with
        | b => fail
        | _ => discriminate (D a b H1 H2)
        end
    end.
Qed.

(** ** The message of the Style check *)

Lemma uint_codes_inj (d d' : Decimal.uint) : uint_codes d = uint_codes d' -> d = d'.
Proof.
  revert d'. induction d as [|d IH|d IH|d IH|d IH|d IH|d IH|d IH|d IH|d IH|d IH];
    intros [|d'|d'|d'|d'|d'|d'|d'|d'|d'|d']; cbn [uint_codes]; intros E;
    try discriminate E; try reflexivity;
    injection E as E; f_equal; now apply IH.
Qed.

Lemma str_of_int_inj (n m : nat) : str_of_int n = str_of_int m -> n = m.
Proof.
  unfold str_of_int. intros E. apply uint_codes_inj in E.
  now apply DecimalNat.Unsigned.to_uint_inj.
Qed.

Lemma style_message_inj (n m : nat) : style_message n = style_message m -> n = m.
Proof.
  unfold style_message. intros E. apply app_inv_head in E.
  apply app_inv_tail in E. now apply str_of_int_inj.
Qed.

(** ** Runs of the loop *)

Section MachineFacts.

Context {World : Type}.
Implicit Types (s : @state World) (w : World).

Lemma step_deterministic filename s s1 s2 :
  step filename s s1 -> step filename s s2 -> s1 = s2.
Proof.
  intros H1 H2. destruct H1. inversion H2. reflexivity.
Qed.

Lemma final_no_step filename s s' : final s -> step filename s s' -> False.
Proof. intros Hf H. destruct H. discriminate Hf. Qed.

Lemma steps_deterministic filename n s s1 :
  steps filename n s s1 -> final s1 ->
  forall m s2, steps filename m s s2 -> final s2 -> n = m /\ s1 = s2.
Proof.
  induction 1 as [s|n s s' s'' H1 Hs IH]; intros Hf m s2 H2 Hf2.
  - destruct H2 as [|m s0 s0' s0'' H2 _]; [now split|].
    exfalso. apply (final_no_step filename s0 s0' Hf H2).
  - destruct H2 as [s0|m s0 s0' s0'' H2 Hs2].
    + exfalso. apply (final_no_step filename s0 s' Hf2 H1).
    + rewrite (step_deterministic filename _ _ _ H2 H1) in Hs2.
      destruct (IH Hf m s0'' Hs2 Hf2) as [-> ->]. now split.
Qed.

(** The loop runs once per line and ends with what [detect_loop] computes. *)
Lemma steps_detect_loop filename w lines :
  forall i issues,
    steps filename (length lines) (mkState w i lines issues)
      (mkState w (i + length lines) [] (detect_loop filename i lines issues)).
Proof.
  induction lines as [|ln rest IH]; intros i issues; cbn [length detect_loop].
  - rewrite Nat.add_0_r. constructor.
  - apply steps_S with (s' := mkState w (S i) rest (check_line filename i ln issues)).
    + constructor.
    + rewrite Nat.add_succ_r. apply (IH (S i)).
Qed.

End MachineFacts.

(** * The properties of [detect_issues] *)

Lemma detect_issues_In filename text x :
  In x (detect_issues filename text) ->
  exists k ln, nth_error (splitlines text) k = Some ln /\ line x = S k
               /\ In x (line_issues filename (S k) ln).
Proof.
  intros H. apply detect_loop_In in H. destruct H as (k & ln & Hk & Hl & Hin).
  now exists k, ln.
Qed.

(** C1. The findings come in ascending line number, and within one line in
    the order Style, Maintainability, BestPractice, ErrorHandling: any
    finding stands before every later one in that order.  A line of 130
    characters in which both ["TODO"] and ["print("] occur gets exactly the
    three findings Style, Maintainability, BestPractice, in this order. *)
Theorem detect_issues_order (filename text : pystr) :
  StronglySorted issue_before (detect_issues filename text)
  /\ StronglySorted (fun a b => line a <= line b) (detect_issues filename text)
  /\ (forall k ln,
        nth_error (splitlines text) k = Some ln ->
        length ln = 130 ->
        substring (lit "TODO") ln -> substring (lit "print(") ln ->
        findings_at (S k) (detect_issues filename text)
        = [mkIssue filename (S k) Style (style_message 130) ln;
           mkIssue filename (S k) Maintainability todo_message ln;
           mkIssue filename (S k) BestPractice print_message ln]).
Proof.
  assert (Hs : StronglySorted issue_before (detect_issues filename text))
    by apply detect_loop_sorted.
  split; [exact Hs|]. split.
  - apply (StronglySorted_weaken issue_before); [apply issue_before_le | exact Hs].
  - intros k ln Hk Hlen Htodo Hprint.
    rewrite (findings_at_detect _ _ _ _ Hk), line_issues_unfold.
    unfold style_check, todo_check, print_check, except_check.
    assert (Hb : re_match bare_except_re ln = false).
    { apply bare_except_re_false. intros Hb. now apply (bare_except_no_todo ln Hb). }
    apply contains_spec in Htodo, Hprint.
    rewrite Hlen, Htodo, Hprint, Hb. reflexivity.
Qed.

Lemma detect_issues_order_witness :
  nth_error (splitlines busy_line) 0 = Some busy_line
  /\ length busy_line = 130
  /\ findings_at 1 (detect_issues sample_file busy_line)
     = [mkIssue sample_file 1 Style (style_message 130) busy_line;
        mkIssue sample_file 1 Maintainability todo_message busy_line;
        mkIssue sample_file 1 BestPractice print_message busy_line].
Proof.
  split; [reflexivity|]. split; [reflexivity|].
  apply (proj2 (proj2 (detect_issues_order sample_file busy_line)) 0 busy_line).
  - reflexivity.
  - reflexivity.
  - exists (lit "print(x) # "), (long_line 115). reflexivity.
  - exists [], (lit "x) # TODO" ++ long_line 115). reflexivity.
Defined.

(** C2. A line gets a Style finding exactly when it has more than 120
    characters; the message is ["Line length {len} exceeds 120 chars"] with
    the decimal numeral of the line's character count, which the message
    determines.  So 120 characters give no Style finding and 121 characters
    give one, saying 121. *)
Theorem style_finding (filename text : pystr) (k : nat) (ln : pystr) :
  nth_error (splitlines text) k = Some ln ->
  (120 < length ln ->
     findings_of Style (S k) (detect_issues filename text)
     = [mkIssue filename (S k) (lit "Style")
          (lit "Line length " ++ str_of_int (length ln) ++ lit " exceeds 120 chars")
          ln])
  /\ (length ln <= 120 ->
        findings_of Style (S k) (detect_issues filename text) = [])
  /\ (length ln = 121 ->
        map message (findings_of Style (S k) (detect_issues filename text))
        = [lit "Line length 121 exceeds 120 chars"])
  /\ (forall m, style_message m = style_message (length ln) -> m = length ln).
Proof.
  intros Hk. rewrite (findings_of_style _ _ _ _ Hk). unfold style_check.
  repeat split.
  - intros H. apply Nat.ltb_lt in H. now rewrite H.
  - intros H. destruct (Nat.ltb_spec 120 (length ln)); [lia | reflexivity].
  - intros ->. reflexivity.
  - intros m H. now apply style_message_inj.
Qed.

Lemma style_finding_witness :
  nth_error (splitlines (long_line 121)) 0 = Some (long_line 121)
  /\ 120 < length (long_line 121)
  /\ findings_of Style 1 (detect_issues sample_file (long_line 121))
     = [mkIssue sample_file 1 (lit "Style")
          (lit "Line length 121 exceeds 120 chars") (long_line 121)].
Proof.
  split; [reflexivity|]. split; [cbn; lia|].
  apply (proj1 (style_finding sample_file (long_line 121) 0 (long_line 121) eq_refl)).
  cbn; lia.
Defined.

(** C3. A line gets exactly one Maintainability finding, with the message
    ["TODO left in code"], when ["TODO"] occurs anywhere in it, whatever
    stands around the occurrence, and none otherwise. *)
Theorem todo_finding (filename text : pystr) (k : nat) (ln : pystr) :
  nth_error (splitlines text) k = Some ln ->
  (substring (lit "TODO") ln ->
     findings_of Maintainability (S k) (detect_issues filename text)
     = [mkIssue filename (S k) (lit "Maintainability") (lit "TODO left in code") ln])
  /\ (~ substring (lit "TODO") ln ->
        findings_of Maintainability (S k) (detect_issues filename text) = []).
Proof.
  intros Hk. rewrite (findings_of_todo _ _ _ _ Hk). unfold todo_check. split.
  - intros H. apply contains_spec in H. now rewrite H.
  - intros H. apply contains_false in H. now rewrite H.
Qed.

Lemma todo_finding_witness :
  nth_error (splitlines (lit "myTODOlist = 1")) 0 = Some (lit "myTODOlist = 1")
  /\ substring (lit "TODO") (lit "myTODOlist = 1")
  /\ findings_of Maintainability 1 (detect_issues sample_file (lit "myTODOlist = 1"))
     = [mkIssue sample_file 1 (lit "Maintainability") (lit "TODO left in code")
          (lit "myTODOlist = 1")].
Proof.
  assert (H : substring (lit "TODO") (lit "myTODOlist = 1"))
    by (exists (lit "my"), (lit "list = 1"); reflexivity).
  split; [reflexivity|]. split; [exact H|].
  exact (proj1 (todo_finding sample_file (lit "myTODOlist = 1") 0 _ eq_refl) H).
Defined.

(** C4. A line gets exactly one BestPractice finding when ["print("] occurs
    anywhere in it, inside a string literal or a comment as well, and none
    otherwise. *)
Theorem print_finding (filename text : pystr) (k : nat) (ln : pystr) :
  nth_error (splitlines text) k = Some ln ->
  (substring (lit "print(") ln ->
     findings_of BestPractice (S k) (detect_issues filename text)
     = [mkIssue filename (S k) (lit "BestPractice")
          (lit "Avoid print in library code; prefer logging") ln])
  /\ (~ substring (lit "print(") ln ->
        findings_of BestPractice (S k) (detect_issues filename text) = []).
Proof.
  intros Hk. rewrite (findings_of_print _ _ _ _ Hk). unfold print_check. split.
  - intros H. apply contains_spec in H. now rewrite H.
  - intros H. apply contains_false in H. now rewrite H.
Qed.

Lemma print_finding_witness :
  nth_error (splitlines (lit "s = 'print(1)'")) 0 = Some (lit "s = 'print(1)'")
  /\ substring (lit "print(") (lit "s = 'print(1)'")
  /\ findings_of BestPractice 1 (detect_issues sample_file (lit "s = 'print(1)'"))
     = [mkIssue sample_file 1 (lit "BestPractice")
          (lit "Avoid print in library code; prefer logging")
          (lit "s = 'print(1)'")].
Proof.
  assert (H : substring (lit "print(") (lit "s = 'print(1)'"))
    by (exists (lit "s = '"), (lit "1)'"); reflexivity).
  split; [reflexivity|]. split; [exact H|].
  exact (proj1 (print_finding sample_file (lit "s = 'print(1)'") 0 _ eq_refl) H).
Defined.

(** C5. A line gets exactly one ErrorHandling finding when, white space at
    both ends apart, it is the keyword [except] followed only by white space
    and the colon, and none otherwise.  So ["except:"] with white space
    around it gets one, and ["except ValueError:"] or a line that merely
    contains the word gets none. *)
Theorem except_finding (filename text : pystr) (k : nat) (ln : pystr) :
  nth_error (splitlines text) k = Some ln ->
  (bare_except_line ln ->
     findings_of ErrorHandling (S k) (detect_issues filename text)
     = [mkIssue filename (S k) (lit "ErrorHandling")
          (lit "Bare except detected; catch specific exceptions") ln])
  /\ (~ bare_except_line ln ->
        findings_of ErrorHandling (S k) (detect_issues filename text) = [])
  /\ (forall w1 w3, all_space w1 -> all_space w3 ->
        ln = w1 ++ lit "except:" ++ w3 ->
        length (findings_of ErrorHandling (S k) (detect_issues filename text)) = 1)
  /\ (ln = lit "except ValueError:" ->
        findings_of ErrorHandling (S k) (detect_issues filename text) = [])
  /\ (ln = lit "x = 1  # except: here" ->
        findings_of ErrorHandling (S k) (detect_issues filename text) = []).
Proof.
  intros Hk. rewrite (findings_of_except _ _ _ _ Hk). unfold except_check.
  repeat split.
  - intros H. apply bare_except_re_spec in H. now rewrite H.
  - intros H. apply bare_except_re_false in H. now rewrite H.
  - intros w1 w3 H1 H3 E.
    assert (H : bare_except_line ln).
    { exists w1, [], w3. repeat split; [exact E | exact H1 | exact H3]. }
    apply bare_except_re_spec in H. now rewrite H.
  - intros ->. reflexivity.
  - intros ->. reflexivity.
Qed.

Lemma except_finding_witness :
  nth_error (splitlines (lit "    except :  ")) 0 = Some (lit "    except :  ")
  /\ bare_except_line (lit "    except :  ")
  /\ findings_of ErrorHandling 1 (detect_issues sample_file (lit "    except :  "))
     = [mkIssue sample_file 1 (lit "ErrorHandling")
          (lit "Bare except detected; catch specific exceptions")
          (lit "    except :  ")].
Proof.
  assert (H : bare_except_line (lit "    except :  ")).
  { exists (lit "    "), (lit " "), (lit "  "). repeat split. }
  split; [reflexivity|]. split; [exact H|].
  exact (proj1 (except_finding sample_file (lit "    except :  ") 0 _ eq_refl) H).
Defined.

(** C6, as the code has it.  The lines scanned are the segments of the text
    between Python's line boundaries (LF, VT, FF, CR, CR LF as one, FS, GS,
    RS, NEL, LS, PS), nothing following the last boundary; the loop makes one
    iteration per such line; none of the lines contains a line boundary.
    Where LF is the only boundary character of the text, their number is the
    number of newlines, plus one when the text does not end in a newline; and
    the empty text gives no finding. *)
Theorem scanned_lines (filename text : pystr) :
  Lines text (splitlines text)
  /\ (forall ls, Lines text ls -> ls = splitlines text)
  /\ (forall (World : Type) (w : World) n s,
        steps filename n (init w text) s -> final s ->
        n = length (splitlines text))
  /\ length (splitlines text) + count_crlf text
     = count_linebreaks text + (if open_line text then 1 else 0)
  /\ (lf_only text ->
        length (splitlines text) = newline_terminated_count text
        /\ length (splitlines text)
           = length (newline_segments text) - (if open_line text then 0 else 1))
  /\ Forall no_linebreak (splitlines text)
  /\ detect_issues filename [] = [].
Proof.
  pose proof (splitlines_Lines text) as HL.
  split; [exact HL|]. split.
  { intros ls H. symmetry. now apply splitlines_iff_Lines. }
  split.
  { intros World w n s Hs Hf.
    destruct (steps_deterministic filename _ _ _
                (steps_detect_loop filename w (splitlines text) 1 []) eq_refl
                n s Hs Hf) as [E _].
    now symmetry. }
  split; [now apply Lines_count|]. split.
  { intros H. pose proof (splitlines_lf_only text H) as E. split; [exact E|].
    rewrite E, newline_segments_length. unfold newline_terminated_count.
    destruct (open_line text); lia. }
  split; [now apply (Lines_no_linebreak text)|reflexivity].
Qed.

Lemma scanned_lines_witness :
  lf_only example_text
  /\ final (mkState tt 4 [] (detect_issues sample_file example_text))
  /\ length (splitlines example_text) = 3
  /\ newline_terminated_count example_text = 3
  /\ length (newline_segments example_text) = 4.
Proof.
  assert (H : lf_only example_text).
  { intros c Hc Hb. cbn in Hc.
    repeat (destruct Hc as [<-|Hc]; [first [reflexivity | discriminate Hb]|]).
    destruct Hc. }
  split; [exact H|]. split; [reflexivity|].
  destruct (scanned_lines sample_file example_text)
    as (_ & _ & Hn & _ & Hlf & _).
  destruct (Hlf H) as [E1 E2].
  split; [|split; [now rewrite <- E1|reflexivity]].
  symmetry.
  apply (Hn unit tt 3 (mkState tt 4 [] (detect_issues sample_file example_text)));
    [|reflexivity].
  apply (steps_detect_loop sample_file tt (splitlines example_text) 1 []).
Defined.

(** C6, as stated, fails: a form feed is not a newline, yet it ends a line.
    The text ["a\fb"] is scanned as two lines, while it is one
    newline-delimited segment, under either reading of the words. *)
Lemma newline_segments_mismatch :
  length (splitlines form_feed_text) = 2
  /\ length (newline_segments form_feed_text) = 1
  /\ newline_terminated_count form_feed_text = 1
  /\ length (splitlines form_feed_text) <> length (newline_segments form_feed_text)
  /\ length (splitlines form_feed_text) <> newline_terminated_count form_feed_text.
Proof. repeat split; cbv; discriminate. Qed.

(** C8. Every finding carries the file name given to the call, and as
    snippet the line its number names: that line of the split, which stands
    in the text unchanged, right after the lines before it and their
    terminators and up to the next line boundary or the end of the text. *)
Theorem snippet_is_line (filename text : pystr) (x : Issue) :
  In x (detect_issues filename text) ->
  file x = filename
  /\ 1 <= line x
  /\ nth_error (splitlines text) (line x - 1) = Some (snippet x)
  /\ exists pre post,
       text = pre ++ snippet x ++ post
       /\ ends_line pre /\ starts_terminator post
       /\ splitlines pre = firstn (line x - 1) (splitlines text).
Proof.
  intros H. apply detect_issues_In in H. destruct H as (k & ln & Hk & Hl & Hin).
  apply line_issues_fields in Hin. destruct Hin as (Hf & _ & Hs & _).
  rewrite Hl, Hs. replace (S k - 1) with k by lia.
  repeat split; [exact Hf | lia | exact Hk |].
  destruct (Lines_segment text _ (splitlines_Lines text) k ln Hk)
    as (pre & post & E & Hpre & Hpost & HL).
  exists pre, post. repeat split; try assumption.
  now apply splitlines_iff_Lines.
Qed.

Lemma snippet_is_line_witness :
  let x := mkIssue sample_file 3 ErrorHandling except_message (lit "except:") in
  In x (detect_issues sample_file example_text)
  /\ nth_error (splitlines example_text) 2 = Some (lit "except:").
Proof.
  intros x.
  assert (H : In x (detect_issues sample_file example_text))
    by (right; right; left; reflexivity).
  split; [exact H|].
  exact (proj1 (proj2 (proj2 (snippet_is_line sample_file example_text x H)))).
Defined.

(** C9, as the code has it.  The example text gives three findings: at
    line 2 the Maintainability one for TODO and the BestPractice one for
    print, at line 3 the ErrorHandling one for the bare except; none at
    line 1. *)
Theorem example_findings (filename : pystr) :
  detect_issues filename example_text
  = [mkIssue filename 2 Maintainability todo_message (lit "print('debug')  # TODO fix");
     mkIssue filename 2 BestPractice print_message (lit "print('debug')  # TODO fix");
     mkIssue filename 3 ErrorHandling except_message (lit "except:")]
  /\ findings_at 1 (detect_issues filename example_text) = []
  /\ length (detect_issues filename example_text) = 3.
Proof. repeat split. Qed.

(** C9, as stated, fails: the findings of the example are three, not four. *)
Lemma example_not_four :
  length (detect_issues sample_file example_text) <> 4.
Proof. cbv. discriminate. Qed.

(** C10. Every finding has a line number between 1 and the number of lines
    of the split text and one of the four categories; a line has at most
    one finding of a category, so at most four findings. *)
Theorem findings_bounds (filename text : pystr) :
  (forall x, In x (detect_issues filename text) ->
     1 <= line x <= length (splitlines text)
     /\ (category x = lit "Style" \/ category x = lit "Maintainability"
         \/ category x = lit "BestPractice" \/ category x = lit "ErrorHandling"))
  /\ (forall cat n, length (findings_of cat n (detect_issues filename text)) <= 1)
  /\ (forall n, length (findings_at n (detect_issues filename text)) <= 4).
Proof.
  split; [|split].
  - intros x H. apply detect_issues_In in H. destruct H as (k & ln & Hk & Hl & Hin).
    apply line_issues_fields in Hin. destruct Hin as (_ & _ & _ & Hc).
    assert (k < length (splitlines text)) by (apply nth_error_Some; congruence).
    split; [lia | exact Hc].
  - intros cat n. apply findings_of_length.
  - intros n. unfold detect_issues. rewrite findings_at_loop.
    destruct (1 <=? n); [|cbn; lia].
    destruct (nth_error (splitlines text) (n - 1)); [|cbn; lia].
    apply line_issues_length.
Qed.

Lemma findings_bounds_witness :
  let x := mkIssue sample_file 2 BestPractice print_message
             (lit "print('debug')  # TODO fix") in
  In x (detect_issues sample_file example_text)
  /\ 1 <= line x <= length (splitlines example_text).
Proof.
  intros x.
  assert (H : In x (detect_issues sample_file example_text))
    by (right; left; reflexivity).
  split; [exact H|].
  exact (proj1 (proj1 (findings_bounds sample_file example_text) x H)).
Defined.

(** * Further properties of the detector *)

(** ** How the scan of [splitlines] proceeds *)

Lemma splitlines_from_keep acc c s :
  is_linebreak c = false ->
  splitlines_from acc (c :: s) = splitlines_from (c :: acc) s.
Proof. intros H. cbn [splitlines_from]. now rewrite H. Qed.

Lemma splitlines_from_break acc c s :
  is_linebreak c = true -> c <> CR ->
  splitlines_from acc (c :: s) = rev acc :: splitlines_from [] s.
Proof.
  intros H Hc. cbn [splitlines_from]. rewrite H.
  destruct s as [|d s]; [reflexivity|].
  destruct (N.eqb_spec c CR); [contradiction | reflexivity].
Qed.

Lemma splitlines_from_crlf acc s :
  splitlines_from acc (CR :: LF :: s) = rev acc :: splitlines_from [] s.
Proof. reflexivity. Qed.

Lemma splitlines_from_cr acc d s :
  d <> LF ->
  splitlines_from acc (CR :: d :: s) = rev acc :: splitlines_from [] (d :: s).
Proof.
  intros Hd. cbn [splitlines_from]. change (is_linebreak CR) with true. cbv iota.
  destruct (N.eqb_spec d LF); [contradiction|]. now rewrite andb_false_r.
Qed.

Lemma splitlines_from_cr_end acc : splitlines_from acc [CR] = [rev acc].
Proof. reflexivity. Qed.

Lemma scan_cases c s : scan_case c s.
Proof.
  destruct (is_linebreak c) eqn:Hb; [|now apply scan_keep].
  destruct (N.eq_dec c CR) as [->|Hc]; [|now apply scan_break].
  destruct s as [|d s']; [now apply scan_cr_end|].
  destruct (N.eq_dec d LF) as [->|Hd].
  - now apply scan_crlf with s'.
  - now apply scan_cr with d s'.
Qed.

(** After a newline the scan starts afresh. *)
Lemma splitlines_from_newline (n : nat) t2 :
  forall t1 acc, length t1 <= n ->
    splitlines_from acc (t1 ++ LF :: t2)
    = splitlines_from acc (t1 ++ [LF]) ++ splitlines_from [] t2.
Proof.
  assert (HLF : LF <> CR) by discriminate.
  induction n as [|n IH]; intros t1 acc Hn.
  - destruct t1; [|cbn in Hn; lia]. cbn [app].
    now rewrite !splitlines_from_break.
  - destruct t1 as [|c s]; [cbn [app]; now rewrite !splitlines_from_break|].
    cbn [length] in Hn. cbn [app].
    destruct (scan_cases c s) as [Hk | Hb Hc | -> -> | s' -> -> | d s' -> -> Hd].
    + rewrite !splitlines_from_keep by exact Hk. apply IH. lia.
    + rewrite !splitlines_from_break by assumption. cbn [app]. f_equal.
      apply IH. lia.
    + reflexivity.
    + cbn [app]. rewrite !splitlines_from_crlf. cbn [app]. f_equal.
      apply IH. cbn [length] in Hn. lia.
    + cbn [app]. rewrite !splitlines_from_cr by exact Hd. cbn [app]. f_equal.
      apply (IH (d :: s')). cbn [length] in *. lia.
Qed.

Lemma splitlines_newline t1 t2 :
  splitlines (t1 ++ [LF] ++ t2) = splitlines (t1 ++ [LF]) ++ splitlines t2.
Proof. apply (splitlines_from_newline (length t1)). lia. Qed.

(** A newline at the end of the text adds at most one empty line. *)
Lemma splitlines_from_final_newline (n : nat) :
  forall t acc, length t <= n ->
    exists extra, Forall (fun l => l = []) extra
                  /\ splitlines_from acc (t ++ [LF]) = splitlines_from acc t ++ extra.
Proof.
  assert (HLF : LF <> CR) by discriminate.
  assert (B : forall acc, exists extra, Forall (fun l : pystr => l = []) extra
            /\ splitlines_from acc [LF] = splitlines_from acc [] ++ extra).
  { intros [|a acc].
    - exists [[]]. split; [now repeat constructor | reflexivity].
    - exists []. split; [constructor | reflexivity]. }
  induction n as [|n IH]; intros t acc Hn.
  - destruct t; [|cbn in Hn; lia]. apply B.
  - destruct t as [|c s]; [apply B|]. cbn [length] in Hn. cbn [app].
    destruct (scan_cases c s) as [Hk | Hb Hc | -> -> | s' -> -> | d s' -> -> Hd].
    + rewrite !splitlines_from_keep by exact Hk. apply IH. lia.
    + rewrite !splitlines_from_break by assumption.
      destruct (IH s [] ltac:(lia)) as (extra & He & E).
      exists extra. split; [exact He|]. now rewrite E.
    + exists []. split; [constructor | reflexivity].
    + cbn [app]. rewrite !splitlines_from_crlf.
      destruct (IH s' [] ltac:(cbn [length] in Hn; lia)) as (extra & He & E).
      exists extra. split; [exact He|]. now rewrite E.
    + cbn [app]. rewrite !splitlines_from_cr by exact Hd.
      destruct (IH (d :: s') [] ltac:(cbn [length] in *; lia)) as (extra & He & E).
      exists extra. split; [exact He|]. change (d :: s' ++ [LF]) with ((d :: s') ++ [LF]).
      now rewrite E.
Qed.

(** CR LF ends a line as LF does. *)
Lemma splitlines_from_crlf_endings s :
  ~ In CR s -> forall acc,
  splitlines_from acc (crlf_endings s) = splitlines_from acc s.
Proof.
  assert (HLF : LF <> CR) by discriminate.
  induction s as [|c s IH]; intros Hcr acc; [reflexivity|].
  assert (Hc : c <> CR) by (intros ->; apply Hcr; now left).
  assert (Hs : ~ In CR s) by (intros H; apply Hcr; now right).
  unfold crlf_endings. cbn [flat_map]. fold (crlf_endings s).
  destruct (N.eqb_spec c LF) as [->|Hlf].
  - cbn [app]. rewrite splitlines_from_crlf, splitlines_from_break by easy.
    f_equal. now apply IH.
  - cbn [app]. destruct (is_linebreak c) eqn:Hb.
    + rewrite !splitlines_from_break by assumption. f_equal. now apply IH.
    + rewrite !splitlines_from_keep by assumption. now apply IH.
Qed.

(** ** The loop over lines put end to end *)

Lemma detect_loop_lines_app filename l1 l2 :
  forall i,
    detect_loop filename i (l1 ++ l2) []
    = detect_loop filename i l1 [] ++ detect_loop filename (i + length l1) l2 [].
Proof.
  induction l1 as [|ln l1 IH]; intros i.
  - cbn [app length detect_loop]. now rewrite Nat.add_0_r.
  - cbn [app length]. rewrite !detect_loop_cons, IH, <- app_assoc.
    now rewrite Nat.add_succ_r.
Qed.

Lemma line_issues_shift filename i n ln :
  line_issues filename (i + n) ln = map (shift_line n) (line_issues filename i ln).
Proof. rewrite !line_issues_unfold. split_checks; reflexivity. Qed.

Lemma detect_loop_shift filename n lines :
  forall i,
    detect_loop filename (i + n) lines []
    = map (shift_line n) (detect_loop filename i lines []).
Proof.
  induction lines as [|ln rest IH]; intros i; [reflexivity|].
  rewrite !detect_loop_cons, map_app, line_issues_shift.
  f_equal. apply (IH (S i)).
Qed.

Lemma line_issues_empty filename i : line_issues filename i [] = [].
Proof. reflexivity. Qed.

Lemma detect_loop_empty_lines filename extra :
  Forall (fun l : pystr => l = []) extra ->
  forall i, detect_loop filename i extra [] = [].
Proof.
  induction 1 as [|l extra E _ IH]; intros i; [reflexivity|].
  subst l. rewrite detect_loop_cons, line_issues_empty. apply IH.
Qed.

Lemma detect_issues_final_newline filename text :
  detect_issues filename (text ++ [LF]) = detect_issues filename text.
Proof.
  unfold detect_issues, splitlines.
  destruct (splitlines_from_final_newline (length text) text [] (Nat.le_refl _))
    as (extra & He & ->).
  rewrite detect_loop_lines_app, (detect_loop_empty_lines filename extra He).
  apply app_nil_r.
Qed.

Lemma line_issues_with_file filename g i ln :
  line_issues filename i ln = map (with_file filename) (line_issues g i ln).
Proof. rewrite !line_issues_unfold. split_checks; reflexivity. Qed.

Lemma detect_loop_with_file filename g lines :
  forall i,
    detect_loop filename i lines []
    = map (with_file filename) (detect_loop g i lines []).
Proof.
  induction lines as [|ln rest IH]; intros i; [reflexivity|].
  rewrite !detect_loop_cons, map_app, <- line_issues_with_file.
  f_equal. apply IH.
Qed.

(** ** What the checks exclude *)

Lemma bare_except_no_print ln :
  bare_except_line ln -> ~ substring (lit "print(") ln.
Proof.
  intros Hb Hs.
  assert (Hc : In 114%N ln) by (apply (substring_In _ _ _ Hs); right; now left).
  destruct (bare_except_chars ln 114%N Hb Hc) as [H|H]; [discriminate|].
  cbn in H. repeat (destruct H as [H|H]; [discriminate|]). destruct H.
Qed.

Lemma except_check_alone filename i ln :
  except_check filename i ln <> [] ->
  todo_check filename i ln = [] /\ print_check filename i ln = [].
Proof.
  unfold except_check, todo_check, print_check.
  destruct (re_match bare_except_re ln) eqn:Hb; [|congruence]. intros _.
  apply bare_except_re_spec in Hb.
  pose proof (bare_except_no_todo ln Hb) as Ht.
  pose proof (bare_except_no_print ln Hb) as Hp.
  apply contains_false in Ht, Hp. now rewrite Ht, Hp.
Qed.

Lemma line_issues_length3 filename i ln : length (line_issues filename i ln) <= 3.
Proof.
  rewrite line_issues_unfold.
  destruct (except_check filename i ln) as [|x l] eqn:E.
  - split_checks; cbn [app length]; lia.
  - destruct (except_check_alone filename i ln) as [-> ->]; [congruence|].
    unfold except_check in E. destruct (re_match bare_except_re ln); [|discriminate].
    injection E as <- <-. split_checks; cbn [app length]; lia.
Qed.

Lemma detect_loop_length3 filename lines :
  forall i, length (detect_loop filename i lines []) <= 3 * length lines.
Proof.
  induction lines as [|ln rest IH]; intros i; [cbn; lia|].
  rewrite detect_loop_cons, length_app. cbn [length].
  pose proof (line_issues_length3 filename i ln). specialize (IH (S i)). lia.
Qed.

Lemma line_issues_filter_cat cat filename i ln :
  filter (fun x => pystr_eqb (category x) cat) (line_issues filename i ln)
  = filter (fun x => pystr_eqb (category x) cat) (style_check filename i ln)
    ++ filter (fun x => pystr_eqb (category x) cat) (todo_check filename i ln)
    ++ filter (fun x => pystr_eqb (category x) cat) (print_check filename i ln)
    ++ filter (fun x => pystr_eqb (category x) cat) (except_check filename i ln).
Proof. now rewrite line_issues_unfold, !filter_app. Qed.

(** ** Statements about the detector *)

(** X1. A line never gets more than three findings: one that is a bare
    [except:] has neither the TODO nor the print finding.  So the findings
    of a text are at most three times its lines. *)
Theorem at_most_three_findings (filename text : pystr) (n : nat) :
  length (findings_at n (detect_issues filename text)) <= 3
  /\ (findings_of ErrorHandling n (detect_issues filename text) <> [] ->
        findings_of Maintainability n (detect_issues filename text) = []
        /\ findings_of BestPractice n (detect_issues filename text) = [])
  /\ length (detect_issues filename text) <= 3 * length (splitlines text).
Proof.
  split; [|split].
  - unfold detect_issues. rewrite findings_at_loop.
    destruct (1 <=? n); [|cbn; lia].
    destruct (nth_error (splitlines text) (n - 1)); [|cbn; lia].
    apply line_issues_length3.
  - destruct n as [|k].
    { unfold findings_of. rewrite findings_at_outside by now left. now intros []. }
    destruct (nth_error (splitlines text) k) as [ln|] eqn:Hk.
    + rewrite (findings_of_except _ _ _ _ Hk), (findings_of_todo _ _ _ _ Hk),
        (findings_of_print _ _ _ _ Hk).
      apply except_check_alone.
    + unfold findings_of. rewrite findings_at_outside; [now intros []|].
      right. apply nth_error_None in Hk. lia.
  - apply detect_loop_length3.
Qed.

Lemma at_most_three_findings_witness :
  findings_of ErrorHandling 3 (detect_issues sample_file example_text) <> []
  /\ findings_of Maintainability 3 (detect_issues sample_file example_text) = []
  /\ findings_of BestPractice 3 (detect_issues sample_file example_text) = [].
Proof.
  assert (H : findings_of ErrorHandling 3 (detect_issues sample_file example_text) <> [])
    by (cbv; discriminate).
  split; [exact H|].
  exact (proj1 (proj2 (at_most_three_findings sample_file example_text 3)) H).
Defined.

(** X2. A newline added at the end of the text changes no finding, whatever
    the text ends in. *)
Theorem trailing_newline_ignored (filename text : pystr) :
  detect_issues filename (text ++ [LF]) = detect_issues filename text.
Proof. apply detect_issues_final_newline. Qed.

(** X3. For a text without CR, writing every line ending as CR LF changes no
    finding: the CR reaches neither the line length nor the snippet. *)
Theorem crlf_endings_same_findings (filename text : pystr) :
  ~ In CR text ->
  detect_issues filename (crlf_endings text) = detect_issues filename text.
Proof.
  intros H. unfold detect_issues, splitlines.
  now rewrite splitlines_from_crlf_endings.
Qed.

Lemma crlf_endings_same_findings_witness :
  ~ In CR example_text
  /\ detect_issues sample_file (crlf_endings example_text)
     = detect_issues sample_file example_text.
Proof.
  assert (H : ~ In CR example_text).
  { intros H. cbn in H. repeat (destruct H as [H|H]; [discriminate H|]). destruct H. }
  split; [exact H|].
  exact (crlf_endings_same_findings sample_file example_text H).
Defined.

(** X4. The findings of two texts joined by a newline are those of the
    first, followed by those of the second with their line numbers moved by
    the number of lines of the first text and its newline. *)
Theorem findings_of_joined_texts (filename t1 t2 : pystr) :
  detect_issues filename (t1 ++ [LF] ++ t2)
  = detect_issues filename t1
    ++ map (shift_line (length (splitlines (t1 ++ [LF]))))
         (detect_issues filename t2).
Proof.
  rewrite <- (detect_issues_final_newline filename t1).
  unfold detect_issues. rewrite splitlines_newline, detect_loop_lines_app.
  f_equal. apply detect_loop_shift.
Qed.

(** X5. The file name decides nothing but the [file] field of the
    findings. *)
Theorem filename_only_labels (filename other text : pystr) :
  detect_issues filename text
  = map (with_file filename) (detect_issues other text).
Proof. apply detect_loop_with_file. Qed.

(** X6. No finding is reported for an empty line, and no snippet contains a
    line boundary character. *)
Theorem snippet_nonempty (filename text : pystr) (x : Issue) :
  In x (detect_issues filename text) ->
  snippet x <> []
  /\ forall c, In c (snippet x) -> is_linebreak c = false.
Proof.
  intros H. apply detect_issues_In in H. destruct H as (k & ln & Hk & _ & Hin).
  assert (Hs : snippet x = ln) by now apply line_issues_fields in Hin.
  rewrite Hs. split.
  - intros ->. now rewrite line_issues_empty in Hin.
  - pose proof (Lines_no_linebreak text _ (splitlines_Lines text)) as HF.
    rewrite Forall_forall in HF. apply nth_error_In in Hk. specialize (HF ln Hk).
    unfold no_linebreak in HF. rewrite forallb_forall in HF.
    intros c Hc. apply HF in Hc. now destruct (is_linebreak c).
Qed.

Lemma snippet_nonempty_witness :
  let x := mkIssue sample_file 3 ErrorHandling except_message (lit "except:") in
  In x (detect_issues sample_file example_text) /\ snippet x <> [].
Proof.
  intros x.
  assert (H : In x (detect_issues sample_file example_text))
    by (right; right; left; reflexivity).
  split; [exact H|].
  exact (proj1 (snippet_nonempty sample_file example_text x H)).
Defined.

(** * The prompt of the suggester *)

Lemma splitlines_line (l rest : pystr) :
  no_linebreak l -> splitlines (l ++ LF :: rest) = l :: splitlines rest.
Proof.
  intros Hl. apply splitlines_iff_Lines.
  apply (Lines_cons l [LF] rest); [exact Hl| |apply splitlines_Lines].
  constructor; [reflexivity | discriminate].
Qed.

Lemma splitlines_last (l : pystr) :
  no_linebreak l -> l <> [] -> splitlines l = [l].
Proof. intros Hl Hne. apply splitlines_iff_Lines. now constructor. Qed.

Lemma uint_codes_no_linebreak (d : Decimal.uint) : no_linebreak (uint_codes d).
Proof.
  unfold no_linebreak. induction d; cbn [uint_codes forallb]; try reflexivity;
    exact IHd.
Qed.

Lemma str_of_int_no_linebreak (n : nat) : no_linebreak (str_of_int n).
Proof. apply uint_codes_no_linebreak. Qed.

Lemma line_issues_texts filename i ln x :
  In x (line_issues filename i ln) ->
  no_linebreak (category x) /\ no_linebreak (message x).
Proof.
  assert (Hm : no_linebreak (style_message (length ln))).
  { unfold style_message. apply no_linebreak_app. split; [reflexivity|].
    apply no_linebreak_app. split; [apply str_of_int_no_linebreak | reflexivity]. }
  rewrite line_issues_unfold. split_checks; cbn [app In];
    intros H; repeat (destruct H as [<-|H]; [split; [reflexivity|first [exact Hm | reflexivity]]|]);
    destruct H.
Qed.

Lemma detect_issues_one_line filename text x :
  no_linebreak filename -> In x (detect_issues filename text) -> one_line_fields x.
Proof.
  intros Hf H. apply detect_issues_In in H. destruct H as (k & ln & Hk & _ & Hin).
  destruct (line_issues_texts _ _ _ _ Hin) as [Hc Hm].
  apply line_issues_fields in Hin. destruct Hin as (E1 & _ & E2 & _).
  unfold one_line_fields. rewrite E1, E2.
  repeat split; try assumption.
  pose proof (Lines_no_linebreak text _ (splitlines_Lines text)) as HF.
  rewrite Forall_forall in HF. apply HF. now apply nth_error_In in Hk.
Qed.

Lemma prompt_lines (x : Issue) :
  one_line_fields x ->
  splitlines (prompt x)
  = [lit "File: " ++ file x;
     lit "Line: " ++ str_of_int (line x);
     lit "Category: " ++ category x;
     lit "Issue: " ++ message x;
     lit "Snippet:";
     snippet x;
     [];
     lit "Suggest a fix with explanation."].
Proof.
  intros (Hf & Hc & Hm & Hs).
  assert (A : forall a b r : pystr, a ++ b ++ LF :: r = (a ++ b) ++ LF :: r)
    by (intros; now rewrite app_assoc).
  unfold prompt. cbn [app].
  rewrite A, splitlines_line by (apply no_linebreak_app; now split).
  rewrite A, splitlines_line
    by (apply no_linebreak_app; split; [reflexivity | apply str_of_int_no_linebreak]).
  rewrite A, splitlines_line by (apply no_linebreak_app; now split).
  rewrite A, splitlines_line by (apply no_linebreak_app; now split).
  change (lit "Snippet:" ++ LF :: snippet x
            ++ LF :: LF :: lit "Suggest a fix with explanation.")
    with (lit "Snippet:" ++ LF :: (snippet x
            ++ LF :: ([] ++ LF :: lit "Suggest a fix with explanation."))).
  rewrite splitlines_line by reflexivity.
  rewrite splitlines_line by exact Hs.
  rewrite splitlines_line by reflexivity.
  reflexivity.
Qed.

Lemma prompt_inj (x y : Issue) :
  one_line_fields x -> one_line_fields y -> prompt x = prompt y -> x = y.
Proof.
  intros Hx Hy E. apply (f_equal splitlines) in E.
  rewrite (prompt_lines x Hx), (prompt_lines y Hy) in E.
  pose proof (f_equal (fun l => nth 0 l []) E) as E1.
  pose proof (f_equal (fun l => nth 1 l []) E) as E2.
  pose proof (f_equal (fun l => nth 2 l []) E) as E3.
  pose proof (f_equal (fun l => nth 3 l []) E) as E4.
  pose proof (f_equal (fun l => nth 5 l []) E) as E5.
  cbn [nth] in E1, E2, E3, E4, E5.
  apply app_inv_head in E1, E2, E3, E4. apply str_of_int_inj in E2.
  destruct x, y. cbn [file line category message snippet] in *. now subst.
Qed.

(** X7. The prompt made for a finding of the detector, under a file name
    without line boundaries, is eight lines: file, line number, category,
    message, the heading of the snippet, the snippet on one line, an empty
    line and the request.  The analysed text cannot add lines to the prompt. *)
Theorem prompt_layout (filename text : pystr) (x : Issue) :
  no_linebreak filename ->
  In x (detect_issues filename text) ->
  splitlines (prompt x)
  = [lit "File: " ++ filename;
     lit "Line: " ++ str_of_int (line x);
     lit "Category: " ++ category x;
     lit "Issue: " ++ message x;
     lit "Snippet:";
     snippet x;
     [];
     lit "Suggest a fix with explanation."].
Proof.
  intros Hf H. rewrite (prompt_lines x (detect_issues_one_line _ _ _ Hf H)).
  apply detect_issues_In in H. destruct H as (k & ln & _ & _ & Hin).
  apply line_issues_fields in Hin. destruct Hin as (E & _). now rewrite E.
Qed.

Lemma prompt_layout_witness :
  let x := mkIssue sample_file 3 ErrorHandling except_message (lit "except:") in
  no_linebreak sample_file
  /\ In x (detect_issues sample_file example_text)
  /\ nth_error (splitlines (prompt x)) 5 = Some (lit "except:").
Proof.
  intros x.
  assert (H : In x (detect_issues sample_file example_text))
    by (right; right; left; reflexivity).
  split; [reflexivity|]. split; [exact H|].
  now rewrite (prompt_layout sample_file example_text x eq_refl H).
Defined.

(** X8. The prompt tells the findings apart: two findings of the detector
    (of any texts, under file names without line boundaries) with the same
    prompt are the same finding, so they get the same suggestion only by the
    model's doing. *)
Theorem prompt_determines_finding (f g t u : pystr) (x y : Issue) :
  no_linebreak f -> no_linebreak g ->
  In x (detect_issues f t) -> In y (detect_issues g u) ->
  prompt x = prompt y -> x = y.
Proof.
  intros Hf Hg Hx Hy. apply prompt_inj.
  - now apply (detect_issues_one_line f t).
  - now apply (detect_issues_one_line g u).
Qed.

Lemma prompt_determines_finding_witness :
  let x := mkIssue sample_file 3 ErrorHandling except_message (lit "except:") in
  In x (detect_issues sample_file example_text) /\ x = x.
Proof.
  intros x.
  assert (H : In x (detect_issues sample_file example_text))
    by (right; right; left; reflexivity).
  split; [exact H|].
  exact (prompt_determines_finding sample_file sample_file example_text example_text
           x x eq_refl eq_refl H H eq_refl).
Defined.

(** * The request handler *)

Lemma lstrip_nil_iff (s : pystr) : lstrip s = [] <-> all_space s.
Proof.
  unfold all_space. induction s as [|c s IH]; [now split|].
  cbn [lstrip forallb]. destruct (is_space c); [exact IH|].
  split; discriminate.
Qed.

Lemma lstrip_idem (s : pystr) : lstrip (lstrip s) = lstrip s.
Proof.
  induction s as [|c s IH]; [reflexivity|].
  cbn [lstrip]. destruct (is_space c) eqn:E; [exact IH|].
  cbn [lstrip]. now rewrite E.
Qed.

Lemma all_space_rev (s : pystr) : all_space (rev s) <-> all_space s.
Proof.
  unfold all_space. rewrite !forallb_forall.
  split; intros H c Hc; apply H.
  - now apply in_rev in Hc.
  - now apply in_rev.
Qed.

Lemma strip_nil_iff (s : pystr) : strip s = [] <-> all_space s.
Proof.
  unfold strip, rstrip. split.
  - intros H. apply (f_equal (@rev N)) in H. rewrite rev_involutive in H.
    cbn [rev] in H. apply (proj1 (lstrip_nil_iff _)) in H.
    apply (proj1 (all_space_rev _)) in H.
    apply (proj2 (lstrip_nil_iff _)) in H. rewrite lstrip_idem in H.
    now apply lstrip_nil_iff.
  - intros H. apply lstrip_nil_iff in H. now rewrite H.
Qed.

Lemma truthy_strip (s : pystr) : truthy (strip s) = false <-> all_space s.
Proof.
  rewrite <- strip_nil_iff. destruct (strip s); cbn [truthy]; split; congruence.
Qed.

Lemma not_all_space (s : pystr) :
  ~ all_space s -> exists c, In c s /\ is_space c = false.
Proof.
  unfold all_space. induction s as [|c s IH]; [now intros []|].
  cbn [forallb]. destruct (is_space c) eqn:E.
  - intros H. destruct (IH H) as (d & Hd & Hs). exists d. split; [now right | exact Hs].
  - intros _. exists c. split; [now left | exact E].
Qed.

Lemma row_issue_to_metric suggest (x : Issue) : row_issue (to_metric suggest x) = x.
Proof. now destruct x. Qed.

Lemma StronglySorted_map {A B : Type} (f : A -> B) (R : B -> B -> Prop) (l : list A) :
  StronglySorted (fun a b => R (f a) (f b)) l -> StronglySorted R (map f l).
Proof.
  induction 1 as [|a l Hs IH Ha]; cbn [map]; constructor; [exact IH|].
  apply Forall_map. exact Ha.
Qed.

Section HandlerFacts.

Context {Bytes : Type}.
Variable decode_utf8 : Bytes -> pystr.
Variable suggest : Issue -> pystr.

Lemma collect_metrics_spec (issues : list Issue) :
  forall metrics,
    collect_metrics suggest issues metrics = metrics ++ map (to_metric suggest) issues.
Proof.
  induction issues as [|x rest IH]; intros metrics; cbn [collect_metrics map].
  - now rewrite app_nil_r.
  - rewrite IH, <- app_assoc. reflexivity.
Qed.

(** The two ways [index] ends: nothing analysed, or the rows of the
    findings of a text with a character that is not white space. *)
Lemma index_cases (request : Request Bytes) :
  (snd (index decode_utf8 suggest request) = []
   /\ (rq_method request <> lit "POST"
       \/ all_space (fst (index decode_utf8 suggest request))))
  \/ (rq_method request = lit "POST"
      /\ ~ all_space (fst (index decode_utf8 suggest request))
      /\ snd (index decode_utf8 suggest request)
         = map (to_metric suggest)
             (detect_issues (lit "uploaded_code.py")
                (fst (index decode_utf8 suggest request)))).
Proof.
  unfold index. destruct (pystr_eqb (rq_method request) (lit "POST")) eqn:Em.
  - apply pystr_eqb_eq in Em.
    set (code := match rq_files_file request with
                 | Some fs => if has_upload (Some fs) then decode_utf8 (fs_content fs)
                              else match rq_form_code request with
                                   | Some c => c | None => [] end
                 | None => match rq_form_code request with
                           | Some c => c | None => [] end
                 end).
    destruct (truthy (strip code)) eqn:Et.
    + right. cbn [fst snd]. repeat split; [exact Em| |apply collect_metrics_spec].
      intros H. apply truthy_strip in H. congruence.
    + left. cbn [fst snd]. split; [reflexivity|]. right. now apply truthy_strip.
  - left. cbn [fst snd]. split; [reflexivity|]. left. intros H.
    apply pystr_eqb_eq in H. congruence.
Qed.

End HandlerFacts.

(** X9. Whatever the request, the rows handed to the template are none, or
    the findings of the detector on the text handed over with them, in the
    detector's order; every row names the file ["uploaded_code.py"], carries
    the suggestion made for its own finding, and shows as snippet the line of
    that text which its line number names. *)
Theorem index_rows {Bytes : Type} (decode_utf8 : Bytes -> pystr)
    (suggest : Issue -> pystr) (request : Request Bytes) :
  let code := fst (index decode_utf8 suggest request) in
  let metrics := snd (index decode_utf8 suggest request) in
  (metrics = []
   \/ map row_issue metrics = detect_issues (lit "uploaded_code.py") code)
  /\ Forall (fun m => m_file m = lit "uploaded_code.py"
                      /\ m_suggestion m = suggest (row_issue m)) metrics
  /\ StronglySorted (fun a b => m_line a <= m_line b) metrics
  /\ (forall m, In m metrics ->
        1 <= m_line m
        /\ nth_error (splitlines code) (m_line m - 1) = Some (m_snippet m)).
Proof.
  intros code metrics. subst code metrics.
  destruct (index_cases decode_utf8 suggest request) as [[-> _] | (_ & _ & ->)].
  - split; [now left|]. split; [constructor|]. split; [constructor|]. intros m [].
  - set (code := fst (index decode_utf8 suggest request)).
    set (issues := detect_issues (lit "uploaded_code.py") code).
    assert (HIn : forall m, In m (map (to_metric suggest) issues) ->
              exists x k ln, m = to_metric suggest x
                /\ nth_error (splitlines code) k = Some ln /\ line x = S k
                /\ file x = lit "uploaded_code.py" /\ snippet x = ln).
    { intros m Hm. apply in_map_iff in Hm. destruct Hm as (x & <- & Hx).
      apply detect_issues_In in Hx. destruct Hx as (k & ln & Hk & Hl & Hin).
      apply line_issues_fields in Hin. destruct Hin as (Hf & _ & Hs & _).
      now exists x, k, ln. }
    repeat split.
    + right. rewrite map_map. rewrite (map_ext _ (fun x => x)); [apply map_id|].
      apply row_issue_to_metric.
    + apply Forall_forall. intros m Hm.
      destruct (HIn m Hm) as (x & k & ln & -> & _ & _ & Hf & _).
      split; [exact Hf | now rewrite row_issue_to_metric].
    + apply StronglySorted_map. cbn [to_metric m_line].
      apply (StronglySorted_weaken issue_before); [apply issue_before_le|].
      apply detect_loop_sorted.
    + destruct (HIn m H) as (x & k & ln & -> & _ & Hl & _). cbn [to_metric m_line]. lia.
    + destruct (HIn m H) as (x & k & ln & -> & Hk & Hl & _ & Hs).
      cbn [to_metric m_line m_snippet]. rewrite Hl, Hs.
      now replace (S k - 1) with k by lia.
Qed.

Lemma index_rows_witness :
  let m := mkMetric (lit "uploaded_code.py") 3 ErrorHandling except_message
             (lit "except:") (lit "fix") in
  In m (snd (index (fun b : pystr => b) sample_suggest sample_request))
  /\ nth_error (splitlines example_text) 2 = Some (lit "except:").
Proof.
  intros m.
  assert (H : In m (snd (index (fun b : pystr => b) sample_suggest sample_request)))
    by (right; right; left; reflexivity).
  split; [exact H|].
  exact (proj2 (proj2 (proj2 (proj2
           (index_rows (fun b : pystr => b) sample_suggest sample_request))) m H)).
Defined.

(** X10. Rows come only from a POST whose text has a character that is not
    white space: any other method, and an empty or blank text, give no row,
    and then neither the detector nor the model is consulted. *)
Theorem index_needs_text {Bytes : Type} (decode_utf8 : Bytes -> pystr)
    (suggest : Issue -> pystr) (request : Request Bytes) :
  snd (index decode_utf8 suggest request) <> [] ->
  rq_method request = lit "POST"
  /\ exists c, In c (fst (index decode_utf8 suggest request)) /\ is_space c = false.
Proof.
  intros H.
  destruct (index_cases decode_utf8 suggest request) as [[E _] | (Hm & Hs & _)];
    [congruence|].
  split; [exact Hm | now apply not_all_space].
Qed.

Lemma index_needs_text_witness :
  snd (index (fun b : pystr => b) sample_suggest sample_request) <> []
  /\ rq_method sample_request = lit "POST".
Proof.
  assert (H : snd (index (fun b : pystr => b) sample_suggest sample_request) <> [])
    by (cbv; discriminate).
  split; [exact H|].
  exact (proj1 (index_needs_text (fun b : pystr => b) sample_suggest sample_request H)).
Defined.

Lemma all_space_blanks (n : nat) : all_space (repeat 32%N n).
Proof. unfold all_space. induction n as [|n IH]; [reflexivity | exact IH]. Qed.

Lemma no_linebreak_blanks (n : nat) : no_linebreak (repeat 32%N n).
Proof. unfold no_linebreak. induction n as [|n IH]; [reflexivity | exact IH]. Qed.

(** X11. The handler is not the detector on blank input: for a pasted line
    of more than 120 spaces the detector reports the long line, and the
    handler shows no row. *)
Theorem index_skips_blank_long_line {Bytes : Type} (decode_utf8 : Bytes -> pystr)
    (suggest : Issue -> pystr) (n : nat) :
  120 < n ->
  detect_issues (lit "uploaded_code.py") (repeat 32%N n)
  = [mkIssue (lit "uploaded_code.py") 1 Style (style_message n) (repeat 32%N n)]
  /\ index decode_utf8 suggest (mkRequest (lit "POST") (Some (repeat 32%N n)) None)
     = (repeat 32%N n, []).
Proof.
  intros Hn. split.
  - unfold detect_issues.
    rewrite (splitlines_last _ (no_linebreak_blanks n))
      by (destruct n; [lia | discriminate]).
    rewrite detect_loop_cons, line_issues_unfold. cbn [detect_loop].
    unfold style_check, todo_check, print_check, except_check.
    rewrite repeat_length. apply Nat.ltb_lt in Hn. rewrite Hn.
    assert (Ht : contains (lit "TODO") (repeat 32%N n) = false).
    { apply contains_false. intros Hs.
      assert (Hc : In 84%N (repeat 32%N n)) by (apply (substring_In _ _ _ Hs); now left).
      apply repeat_spec in Hc. discriminate. }
    assert (Hp : contains (lit "print(") (repeat 32%N n) = false).
    { apply contains_false. intros Hs.
      assert (Hc : In 112%N (repeat 32%N n)) by (apply (substring_In _ _ _ Hs); now left).
      apply repeat_spec in Hc. discriminate. }
    assert (He : re_match bare_except_re (repeat 32%N n) = false).
    { apply bare_except_re_false. intros (w1 & w2 & w3 & E & _).
      assert (Hc : In 101%N (repeat 32%N n)).
      { rewrite E. apply in_or_app. right. now left. }
      apply repeat_spec in Hc. discriminate. }
    rewrite Ht, Hp, He. reflexivity.
  - unfold index. change (pystr_eqb (lit "POST") (lit "POST")) with true.
    cbn [rq_method rq_form_code rq_files_file].
    now rewrite (proj2 (truthy_strip _) (all_space_blanks n)).
Qed.

Lemma index_skips_blank_long_line_witness :
  120 < 121
  /\ index (fun b : pystr => b) sample_suggest
       (mkRequest (lit "POST") (Some (repeat 32%N 121)) None)
     = (repeat 32%N 121, []).
Proof.
  assert (H : 120 < 121) by lia.
  split; [exact H|].
  exact (proj2 (index_skips_blank_long_line (fun b : pystr => b) sample_suggest 121 H)).
Defined.

(** X12. An upload with a name replaces the pasted text, which then plays
    no part in the answer; an upload without a name is not read at all. *)
Theorem upload_precedence {Bytes : Type} (decode_utf8 : Bytes -> pystr)
    (suggest : Issue -> pystr) (method : pystr) (c1 c2 : option pystr)
    (f1 f2 : option (FileStorage Bytes)) :
  (has_upload f1 = true ->
     index decode_utf8 suggest (mkRequest method c1 f1)
     = index decode_utf8 suggest (mkRequest method c2 f1))
  /\ (has_upload f1 = false -> has_upload f2 = false ->
        index decode_utf8 suggest (mkRequest method c1 f1)
        = index decode_utf8 suggest (mkRequest method c1 f2)).
Proof.
  unfold index. cbn [rq_method rq_form_code rq_files_file]. split.
  - intros H. destruct f1 as [fs|]; [|discriminate H]. now rewrite H.
  - intros H1 H2. destruct f1 as [fs1|], f2 as [fs2|];
      rewrite ?H1, ?H2; reflexivity.
Qed.

Lemma upload_precedence_witness :
  has_upload (Some (mkFile (Some (lit "a.py")) example_text)) = true
  /\ index (fun b : pystr => b) sample_suggest
       (mkRequest (lit "POST") (Some (lit "x = 1"))
          (Some (mkFile (Some (lit "a.py")) example_text)))
     = index (fun b : pystr => b) sample_suggest
         (mkRequest (lit "POST") None
            (Some (mkFile (Some (lit "a.py")) example_text))).
Proof.
  split; [reflexivity|].
  exact (proj1 (upload_precedence (fun b : pystr => b) sample_suggest (lit "POST")
                  (Some (lit "x = 1")) None
                  (Some (mkFile (Some (lit "a.py")) example_text)) None) eq_refl).
Defined.

(** * The chart data *)

Lemma pystr_eqb_refl (a : pystr) : pystr_eqb a a = true.
Proof. now apply pystr_eqb_eq. Qed.

Lemma pystr_eqb_neq (a b : pystr) : a <> b -> pystr_eqb a b = false.
Proof.
  intros H. destruct (pystr_eqb a b) eqn:E; [|reflexivity].
  apply pystr_eqb_eq in E. contradiction.
Qed.

Lemma obj_set_keys (o : jsobject) k v c :
  In c (map fst (obj_set o k v)) <-> c = k \/ In c (map fst o).
Proof.
  induction o as [|[k' v'] o IH]; cbn [obj_set map fst In].
  - split; [intros [<-|[]]; now left | intros [->|[]]; now left].
  - destruct (pystr_eqb k' k) eqn:E; cbn [map fst In].
    + apply pystr_eqb_eq in E. subst k'. split; [tauto|].
      intros [->|H]; [now left | exact H].
    + rewrite IH. split; tauto.
Qed.

Lemma obj_set_NoDup (o : jsobject) k v :
  NoDup (map fst o) -> NoDup (map fst (obj_set o k v)).
Proof.
  induction o as [|[k' v'] o IH]; cbn [obj_set map fst]; intros H.
  - constructor; [now intros [] | constructor].
  - inversion H as [|a l Hn Hd]; subst.
    destruct (pystr_eqb k' k) eqn:E; cbn [map fst].
    + now constructor.
    + constructor; [|now apply IH].
      intros Hin. apply obj_set_keys in Hin. destruct Hin as [->|Hin]; [|contradiction].
      now rewrite pystr_eqb_refl in E.
Qed.

Lemma obj_get_set (o : jsobject) k v c :
  obj_get (obj_set o k v) c = if pystr_eqb k c then Some v else obj_get o c.
Proof.
  induction o as [|[k' v'] o IH]; cbn [obj_set obj_get]; [reflexivity|].
  destruct (pystr_eqb k' k) eqn:E; cbn [obj_get].
  - apply pystr_eqb_eq in E. subst k'. now destruct (pystr_eqb k c).
  - rewrite IH. destruct (pystr_eqb k' c) eqn:E'; [|reflexivity].
    apply pystr_eqb_eq in E'. subst c.
    rewrite pystr_eqb_neq; [reflexivity|].
    intros ->. now rewrite pystr_eqb_refl in E.
Qed.

Lemma obj_get_In (o : jsobject) c v :
  NoDup (map fst o) -> In (c, v) o -> obj_get o c = Some v.
Proof.
  induction o as [|[k' v'] o IH]; cbn [map fst obj_get In]; [now intros _ []|].
  intros H Hin. inversion H as [|a l Hn Hd]; subst.
  destruct Hin as [E|Hin].
  - injection E as -> ->. now rewrite pystr_eqb_refl.
  - rewrite pystr_eqb_neq; [now apply IH|].
    intros ->. apply Hn. now apply (in_map fst) in Hin.
Qed.

Lemma or_zero_some (v : nat) : or_zero (Some v) = v.
Proof. now destruct v. Qed.

Lemma count_row_sum (o : jsobject) (m : Metric) :
  list_sum (map snd (count_row o m)) = S (list_sum (map snd o)).
Proof.
  unfold count_row. generalize (m_category m) as k. intros k.
  induction o as [|[k' v'] o IH]; cbn [obj_get obj_set map snd list_sum];
    [reflexivity|].
  destruct (pystr_eqb k' k); cbn [map snd list_sum].
  - rewrite or_zero_some. cbn [list_sum fold_right]. unfold list_sum. cbn [fold_right]. lia.
  - unfold list_sum in *. cbn [fold_right]. rewrite IH. lia.
Qed.

Lemma count_row_get (o : jsobject) (m : Metric) c :
  or_zero (obj_get (count_row o m) c)
  = or_zero (obj_get o c) + length (rows_of c [m]).
Proof.
  unfold count_row, rows_of. cbn [filter]. rewrite obj_get_set.
  destruct (pystr_eqb (m_category m) c) eqn:E; cbn [length]; [|lia].
  apply pystr_eqb_eq in E. rewrite E, or_zero_some. reflexivity.
Qed.

Lemma rows_of_cons c m ms :
  length (rows_of c (m :: ms)) = length (rows_of c [m]) + length (rows_of c ms).
Proof.
  unfold rows_of. cbn [filter]. destruct (pystr_eqb (m_category m) c); reflexivity.
Qed.

(** What the counting loop keeps, from any object with distinct keys. *)
Lemma counting_invariant (ms : list Metric) :
  forall o, NoDup (map fst o) ->
    let o' := fold_left count_row ms o in
    NoDup (map fst o')
    /\ list_sum (map snd o') = list_sum (map snd o) + length ms
    /\ (forall c, or_zero (obj_get o' c)
                  = or_zero (obj_get o c) + length (rows_of c ms))
    /\ (forall c, In c (map fst o') <->
                  In c (map fst o) \/ exists m, In m ms /\ m_category m = c).
Proof.
  induction ms as [|m ms IH]; intros o Ho; cbn [fold_left].
  - repeat split; try assumption; cbn [length rows_of filter]; try lia.
    + now left.
    + intros [H|(m & [] & _)]. exact H.
  - assert (Ho' : NoDup (map fst (count_row o m))) by now apply obj_set_NoDup.
    destruct (IH _ Ho') as (H1 & H2 & H3 & H4). repeat split.
    + exact H1.
    + rewrite H2, count_row_sum. cbn [length]. lia.
    + intros c. rewrite H3, count_row_get, (rows_of_cons c m ms). lia.
    + intros H. apply H4 in H. destruct H as [H|(x & Hx & E)].
      * apply obj_set_keys in H. destruct H as [->|H]; [|now left].
        right. exists m. split; [now left | reflexivity].
      * right. exists x. split; [now right | exact E].
    + intros H. apply H4. destruct H as [H|(x & [<-|Hx] & E)].
      * left. apply obj_set_keys. now right.
      * left. apply obj_set_keys. now left.
      * right. now exists x.
Qed.

Lemma chart_counts_spec (ms : list Metric) :
  NoDup (chart_labels ms)
  /\ list_sum (chart_values ms) = length ms
  /\ (forall c v, In (c, v) (chart_counts ms) ->
        1 <= v /\ v = length (rows_of c ms))
  /\ (forall c, In c (chart_labels ms) <-> exists m, In m ms /\ m_category m = c).
Proof.
  destruct (counting_invariant ms [] (NoDup_nil _)) as (H1 & H2 & H3 & H4).
  change (fold_left count_row ms []) with (chart_counts ms) in *.
  assert (K : forall c, In c (chart_labels ms) <-> exists m, In m ms /\ m_category m = c).
  { intros c. unfold chart_labels. rewrite H4. cbn [map In]. tauto. }
  split; [exact H1|]. split; [exact H2|]. split; [|exact K].
  intros c v H.
  assert (Hv : v = length (rows_of c ms)).
  { pose proof (obj_get_In _ _ _ H1 H) as E. specialize (H3 c).
    rewrite E, or_zero_some in H3. exact H3. }
  split; [|exact Hv].
  assert (Hc : In c (chart_labels ms)) by (apply (in_map fst) in H; exact H).
  apply K in Hc. destruct Hc as (m & Hm & E).
  assert (Hr : In m (rows_of c ms)).
  { apply filter_In. split; [exact Hm | now apply pystr_eqb_eq]. }
  rewrite Hv. destruct (rows_of c ms); [destruct Hr | cbn [length]; lia].
Qed.

(** X13. For the rows of any request, the chart has one label per category
    present, each once; the value of a label is the number of rows of that
    category, at least one; the values add up to the number of rows; and the
    labels are at most four, fewer than the colours at hand. *)
Theorem chart_counts_of_rows {Bytes : Type} (decode_utf8 : Bytes -> pystr)
    (suggest : Issue -> pystr) (request : Request Bytes) :
  let metrics := snd (index decode_utf8 suggest request) in
  NoDup (chart_labels metrics)
  /\ list_sum (chart_values metrics) = length metrics
  /\ (forall c v, In (c, v) (chart_counts metrics) ->
        1 <= v /\ v = length (rows_of c metrics))
  /\ (forall m, In m metrics -> In (m_category m) (chart_labels metrics))
  /\ length (chart_labels metrics) <= 4
  /\ length (chart_labels metrics) <= length colors.
Proof.
  intros metrics.
  destruct (chart_counts_spec metrics) as (H1 & H2 & H3 & H4).
  assert (H5 : length (chart_labels metrics) <= 4).
  { apply (NoDup_incl_length (l' := [Style; Maintainability; BestPractice; ErrorHandling]) H1).
    intros c Hc. apply H4 in Hc. destruct Hc as (m & Hm & <-).
    subst metrics.
    destruct (index_cases decode_utf8 suggest request) as [[E _] | (_ & _ & E)];
      rewrite E in Hm; [destruct Hm|].
    apply in_map_iff in Hm. destruct Hm as (x & <- & Hx).
    apply detect_issues_In in Hx. destruct Hx as (k & ln & _ & _ & Hin).
    apply line_issues_fields in Hin. destruct Hin as (_ & _ & _ & Hc).
    cbn [to_metric m_category In]. unfold is_category in Hc.
    destruct Hc as [-> | [-> | [-> | ->]]]; auto. }
  repeat split; try assumption.
  - now apply H3 in H.
  - now apply H3 in H.
  - intros m Hm. apply H4. now exists m.
  - change (length colors) with 8. lia.
Qed.

Lemma chart_counts_of_rows_witness :
  let metrics := snd (index (fun b : pystr => b) sample_suggest sample_request) in
  In (ErrorHandling, 1) (chart_counts metrics)
  /\ 1 = length (rows_of ErrorHandling metrics).
Proof.
  intros metrics.
  assert (H : In (ErrorHandling, 1) (chart_counts metrics))
    by (right; right; left; reflexivity).
  split; [exact H|].
  exact (proj2 (proj1 (proj2 (proj2
           (chart_counts_of_rows (fun b : pystr => b) sample_suggest sample_request)))
           ErrorHandling 1 H)).
Defined.
